(** * Time management of the engine (src/timeman.cpp)

    A shallow embedding of [move_importance], [remaining<T>] and
    [TimeManagement::init], and the properties of the time budget proved or
    refuted on it.

    Conventions of the embedding.
    - [int] and [int64_t] values are integers of [Z].  Signed overflow is
      undefined in C++, so arithmetic is written without wrap-around; the one
      narrowing conversion of the source, [(int)availableNodes], is written
      out with its 32-bit wrap ([to_int]).  A property that needs the [int]
      operations of a call to stay within the range of [int] says so with
      [remaining_in_range] or [init_in_range].
    - [double] values are real numbers of [R] with exact arithmetic.  Two
      effects of binary64 are written out.  A division whose divisor is zero
      gives an infinity or a NaN in C++, which in [remaining] always reaches
      the conversion [int(...)], where the behaviour is undefined: the
      embedding returns [None] there ([ddiv]).  And [exp] overflows to
      [+inf] above [ln(DBL_MAX)], which makes [move_importance] return 0.
      Rounding is not modelled, and the properties are stated so as not to
      depend on the last bit of a double: orderings that monotone rounding
      keeps, bounds with room for the last unit of a truncated result, and
      values that the doubles hold exactly.
    - [int(x)] on a finite double truncates towards zero ([int_of_double]);
      outside the range of [int] the conversion is undefined in C++, and the
      properties that depend on it assume the range. *)

From Stdlib Require Import ZArith List Bool Lia Reals Lra Psatz.
Import ListNotations.

Local Open Scope Z_scope.

(** ** Doubles *)

(** The result of a double computation: [None] when a zero divisor was met. *)
Definition double : Type := option R.

Definition ddiv (x y : R) : double :=
  if Req_dec_T y 0 then None else Some (x / y)%R.

Definition bind {A B : Type} (m : option A) (k : A -> option B) : option B :=
  match m with
  | Some a => k a
  | None => None
  end.

Notation "x <- m ;; k" := (bind m (fun x => k))
  (at level 61, m at next level, right associativity).

(** [int(x)]: truncation towards zero.  [Int_part] is the floor.  The result
    is that of C++ when it lies within the range of [int]. *)
Definition int_of_double (x : R) : Z :=
  if Rle_dec 0 x then Int_part x else - Int_part (- x).

(** [(int)v] for a 64-bit [v]: reduction to the signed 32-bit range. *)
Definition to_int (v : Z) : Z := (v + 2 ^ 31) mod 2 ^ 32 - 2 ^ 31.

(** ** Constants and [move_importance] *)

Inductive TimeType : Set := OptimumTime | MaxTime.

Definition MoveHorizon : Z := 100.
Definition MaxRatio : R := 7.09.
Definition StealRatio : R := 0.35.

Definition PlyScale : R := 7.64.
Definition PlyShift : R := 58.4.
Definition Skew : R := 0.183.

(** [ln(DBL_MAX)]: [exp] of a larger double overflows to [+inf]. *)
Definition LN_DBL_MAX : R := 709.782712893384.

(** [pow((1 + exp((ply - PlyShift) / PlyScale)), -Skew)].  When [exp]
    overflows, the sum is [+inf] and [pow(+inf, -Skew)] is [+0]: this is the
    case from ply 5482 on. *)
Definition move_importance (ply : Z) : R :=
  let x := ((IZR ply - PlyShift) / PlyScale)%R in
  if Rlt_dec LN_DBL_MAX x then 0%R
  else Rpower (1 + exp x) (- Skew).

(** ** [remaining<T>] *)

Definition TMaxRatio (T : TimeType) : R :=
  match T with OptimumTime => 1 | MaxTime => MaxRatio end.

Definition TStealRatio (T : TimeType) : R :=
  match T with OptimumTime => 0 | MaxTime => StealRatio end.

(** [double moveImportance = (move_importance(ply) * slowMover) / 100;]
    ([ply] is the capped ply). *)
Definition moveImportance (ply slowMover : Z) : R :=
  (move_importance ply * IZR slowMover / 100)%R.

(** The loop [for (i = ...; i < movesToGo; ++i) acc += move_importance(ply + 2 * i)],
    with [n] iterations left. *)
Fixpoint importance_loop (ply i : Z) (n : nat) (acc : R) : R :=
  match n with
  | O => acc
  | S n' => importance_loop ply (i + 1) n' (acc + move_importance (ply + 2 * i))%R
  end.

(** [otherMovesImportance] after the loop, which starts at [i = 1] and runs
    [movesToGo - 1] times (not at all when [movesToGo <= 1]). *)
Definition otherMovesImportance (ply movesToGo : Z) : R :=
  importance_loop ply 1 (Z.to_nat (movesToGo - 1)) 0%R.

(** [myTime + myInc * otherMovesImportance / moveImportance] *)
Definition expectedTime (myTime myInc : Z) (mi omi : R) : double :=
  q <- ddiv (IZR myInc * omi) mi ;;
  Some (IZR myTime + q)%R.

Definition ratio1 (T : TimeType) (mi omi : R) : double :=
  ddiv (TMaxRatio T * mi) (TMaxRatio T * mi + omi).

Definition ratio2 (T : TimeType) (mi omi : R) : double :=
  ddiv (mi + TStealRatio T * omi) (mi + omi).

Definition remaining (T : TimeType) (myTime myInc movesToGo ply slowMover : Z)
  : option Z :=
  let ply := Z.min ply 200 in
  let mi := moveImportance ply slowMover in
  let omi := otherMovesImportance ply movesToGo in
  e <- expectedTime myTime myInc mi omi ;;
  r1 <- ratio1 T mi omi ;;
  r2 <- ratio2 T mi omi ;;
  let calculatedTime := int_of_double (e * Rmin r1 r2) in
  Some (Z.min calculatedTime myTime).

(** ** [TimeManagement::init] *)

Inductive Color : Set := WHITE | BLACK.

(** An array indexed by [Color], as [limits.time] and [limits.inc]. *)
Record ByColor : Set := { white : Z; black : Z }.

Definition get (a : ByColor) (c : Color) : Z :=
  match c with WHITE => white a | BLACK => black a end.

Definition put (a : ByColor) (c : Color) (v : Z) : ByColor :=
  match c with
  | WHITE => {| white := v; black := black a |}
  | BLACK => {| white := white a; black := v |}
  end.

(** The fields of [Search::LimitsType] that [init] reads or writes. *)
Record LimitsType : Set := {
  time : ByColor;
  inc : ByColor;
  npmsec : Z;
  movestogo : Z;
  startTime : Z
}.

(** The entries of [Options] that [init] reads. *)
Record OptionsMap : Set := {
  Minimum_Thinking_Time : Z;
  Move_Overhead : Z;
  Slow_Mover : Z;
  nodestime : Z;
  Ponder : bool
}.

Record TimeManagement : Set := {
  tm_startTime : Z;
  optimumTime : Z;
  maximumTime : Z;
  availableNodes : Z
}.

(** Lines 106-115: the conversion from time to nodes.  The two products are
    those of [Z]; [init_in_range] says when they are those of [int]. *)
Definition nodes_as_time (Options : OptionsMap) (tm : TimeManagement)
    (limits : LimitsType) (us : Color) : TimeManagement * LimitsType :=
  let npmsec' := nodestime Options in
  if npmsec' =? 0 then (tm, limits)
  else
    let tm :=
      if availableNodes tm =? 0
      then {| tm_startTime := tm_startTime tm;
              optimumTime := optimumTime tm;
              maximumTime := maximumTime tm;
              availableNodes := npmsec' * get (time limits) us |}
      else tm in
    let limits :=
      {| time := put (time limits) us (to_int (availableNodes tm));
         inc := put (inc limits) us (get (inc limits) us * npmsec');
         npmsec := npmsec';
         movestogo := movestogo limits;
         startTime := startTime limits |} in
    (tm, limits).

(** [limits.movestogo ? std::min(limits.movestogo, MoveHorizon) : MoveHorizon] *)
Definition hypMTG (limits : LimitsType) : Z :=
  if movestogo limits =? 0 then MoveHorizon
  else Z.min (movestogo limits) MoveHorizon.

(** [std::max(limits.time[us] - moveOverhead, 0)] *)
Definition myTime_of (Options : OptionsMap) (limits : LimitsType) (us : Color) : Z :=
  Z.max (get (time limits) us - Move_Overhead Options) 0.

(** [init] returns the updated [Time] object and the updated [limits].  The
    subtraction of the overhead and the sum of the Ponder adjustment are those
    of [Z]; [init_in_range] says when they are those of [int]. *)
Definition init (Options : OptionsMap) (tm : TimeManagement)
    (limits : LimitsType) (us : Color) (ply : Z)
  : option (TimeManagement * LimitsType) :=
  let minThinkingTime := Minimum_Thinking_Time Options in
  let slowMover := Slow_Mover Options in
  let '(tm, limits) := nodes_as_time Options tm limits us in
  let startTime' := startTime limits in
  let hypMTG := hypMTG limits in
  let myTime := myTime_of Options limits us in
  let myInc := get (inc limits) us in
  optimumTime' <- remaining OptimumTime myTime myInc hypMTG ply slowMover ;;
  maximumTime' <- remaining MaxTime myTime myInc hypMTG ply slowMover ;;
  let optimumTime' := Z.max optimumTime' minThinkingTime in
  let maximumTime' := Z.max maximumTime' minThinkingTime in
  let optimumTime' :=
    if Ponder Options then optimumTime' + optimumTime' ÷ 4 else optimumTime' in
  Some ({| tm_startTime := startTime';
           optimumTime := optimumTime';
           maximumTime := maximumTime';
           availableNodes := availableNodes tm |}, limits).

(** ** Auxiliary definitions for the statements *)

(** The range of [int]. *)
Definition INT_MAX : Z := 2147483647.
Definition INT_MIN : Z := -2147483648.

Definition is_int (v : Z) : Prop := INT_MIN <= v <= INT_MAX.

(** Arguments of [remaining] that keep its [int] operations within the range
    of [int]: the clock is an [int], the increment is not negative, clock and
    increment multiplied by [MaxRatio] fit (so that the double converted by
    [int(...)] does), and so does the largest [ply + 2 * i] of the loop. *)
Definition remaining_in_range (myTime myInc movesToGo : Z) : Prop :=
  INT_MIN <= myTime /\ 709 * myTime <= 100 * INT_MAX
  /\ 0 <= myInc /\ 709 * myInc <= 100 * INT_MAX
  /\ 200 + 2 * movesToGo <= INT_MAX.

(** The argument of [exp] in [move_importance]. *)
Definition ply_arg (ply : Z) : R := ((IZR ply - PlyShift) / PlyScale)%R.

(** The share of the expected time taken by the move: [min(ratio1, ratio2)]. *)
Definition share (T : TimeType) (mi omi : R) : R :=
  Rmin (TMaxRatio T * mi / (TMaxRatio T * mi + omi))%R
       ((mi + TStealRatio T * omi) / (mi + omi))%R.

(** The double that [remaining] converts to [calculatedTime], when no divisor
    is zero. *)
Definition calculated (T : TimeType) (myTime myInc : Z) (mi omi : R) : R :=
  ((IZR myTime + IZR myInc * omi / mi) * share T mi omi)%R.

(** [limits] with another increment for [us]. *)
Definition set_inc (limits : LimitsType) (us : Color) (v : Z) : LimitsType :=
  {| time := time limits;
     inc := put (inc limits) us v;
     npmsec := npmsec limits;
     movestogo := movestogo limits;
     startTime := startTime limits |}.

(** The calls of [init] of one session, in order, on the one [Time] object. *)
Fixpoint session (Options : OptionsMap) (tm : TimeManagement)
    (calls : list (LimitsType * Color * Z)) : option TimeManagement :=
  match calls with
  | [] => Some tm
  | (limits, us, ply) :: calls' =>
      r <- init Options tm limits us ply ;;
      session Options (fst r) calls'
  end.

(** The [Time] object at the start of a session. *)
Definition Time0 : TimeManagement :=
  {| tm_startTime := 0; optimumTime := 0; maximumTime := 0; availableNodes := 0 |}.

(** The limits of [go wtime t btime t winc i binc i movestogo mtg]. *)
Definition go (t i mtg : Z) : LimitsType :=
  {| time := {| white := t; black := t |};
     inc := {| white := i; black := i |};
     npmsec := 0;
     movestogo := mtg;
     startTime := 0 |}.

(** [limits] with another clock for [us], and with another [movestogo]. *)
Definition set_time (limits : LimitsType) (us : Color) (v : Z) : LimitsType :=
  {| time := put (time limits) us v;
     inc := inc limits;
     npmsec := npmsec limits;
     movestogo := movestogo limits;
     startTime := startTime limits |}.

Definition set_movestogo (limits : LimitsType) (v : Z) : LimitsType :=
  {| time := time limits;
     inc := inc limits;
     npmsec := npmsec limits;
     movestogo := v;
     startTime := startTime limits |}.

(** [Options] with another node rate, and with another Ponder setting. *)
Definition set_nodestime (Options : OptionsMap) (v : Z) : OptionsMap :=
  {| Minimum_Thinking_Time := Minimum_Thinking_Time Options;
     Move_Overhead := Move_Overhead Options;
     Slow_Mover := Slow_Mover Options;
     nodestime := v;
     Ponder := Ponder Options |}.

Definition set_Ponder (Options : OptionsMap) (v : bool) : OptionsMap :=
  {| Minimum_Thinking_Time := Minimum_Thinking_Time Options;
     Move_Overhead := Move_Overhead Options;
     Slow_Mover := Slow_Mover Options;
     nodestime := nodestime Options;
     Ponder := v |}.

Definition set_Move_Overhead (Options : OptionsMap) (v : Z) : OptionsMap :=
  {| Minimum_Thinking_Time := Minimum_Thinking_Time Options;
     Move_Overhead := v;
     Slow_Mover := Slow_Mover Options;
     nodestime := nodestime Options;
     Ponder := Ponder Options |}.

(** A call of [init] that keeps its [int] operations within the range of
    [int]: the product [npmsec * limits.time[us]] when the latch is written,
    the subtraction of the overhead, the two calls of [remaining] (with the
    increment scaled by the node rate) and, with Ponder on, the sum
    [optimumTime + optimumTime / 4] when the minimum thinking time is the
    larger operand. *)
Definition init_in_range (Options : OptionsMap) (tm : TimeManagement)
    (limits : LimitsType) (us : Color) : Prop :=
  let l1 := snd (nodes_as_time Options tm limits us) in
  is_int (if availableNodes tm =? 0
          then nodestime Options * get (time limits) us else 0)
  /\ is_int (get (time l1) us - Move_Overhead Options)
  /\ remaining_in_range (myTime_of Options l1 us) (get (inc l1) us) (hypMTG l1)
  /\ (if Ponder Options
      then 5 * Minimum_Thinking_Time Options <= 4 * INT_MAX
      else Minimum_Thinking_Time Options <= INT_MAX).

(** The arguments that [init] passes to [remaining] in a game: at most
    [MoveHorizon] moves, a game ply, and a slow mover within the bounds of
    its option. *)
Definition game_arguments (movesToGo ply slowMover : Z) : Prop :=
  movesToGo <= MoveHorizon /\ 0 <= ply /\ 0 < slowMover <= 1000.

(** The pair of budgets that a call of [init] leaves in the [Time] object. *)
Definition budgets (r : option (TimeManagement * LimitsType)) : option (Z * Z) :=
  r' <- r ;; Some (optimumTime (fst r'), maximumTime (fst r')).

(** * Properties *)

(** ** The importance model *)

Section Importance.
Local Open Scope R_scope.

Lemma exp_le_mono (x y : R) : x <= y -> exp x <= exp y.
Proof.
  intros [Hlt | ->].
  - left. now apply exp_increasing.
  - right. reflexivity.
Qed.

Lemma ln_le_mono (x y : R) : 0 < x -> x <= y -> ln x <= ln y.
Proof.
  intros Hx [Hlt | ->].
  - left. now apply ln_increasing.
  - right. reflexivity.
Qed.


Lemma ply_arg_mono (p q : Z) : (p <= q)%Z -> ply_arg p <= ply_arg q.
Proof.
  intros Hpq. apply IZR_le in Hpq.
  unfold ply_arg, PlyScale, PlyShift. lra.
Qed.

Lemma move_importance_unfold (ply : Z) :
  (ply <= 5481)%Z ->
  move_importance ply = exp (- Skew * ln (1 + exp (ply_arg ply))).
Proof.
  intros H. apply IZR_le in H. unfold move_importance.
  destruct (Rlt_dec _ _) as [Hlt | _]; [| reflexivity].
  unfold LN_DBL_MAX, PlyShift, PlyScale in Hlt. lra.
Qed.

(** From ply 5482 on [exp] overflows and the importance is 0. *)
Lemma move_importance_overflow (ply : Z) :
  (5482 <= ply)%Z -> move_importance ply = 0.
Proof.
  intros H. apply IZR_le in H. unfold move_importance.
  destruct (Rlt_dec _ _) as [_ | Hge]; [reflexivity |].
  unfold LN_DBL_MAX, PlyShift, PlyScale in Hge. lra.
Qed.

Lemma move_importance_pos (ply : Z) : (ply <= 5481)%Z -> 0 < move_importance ply.
Proof. intros H. rewrite move_importance_unfold by assumption. apply exp_pos. Qed.

Lemma move_importance_nonneg (ply : Z) : 0 <= move_importance ply.
Proof.
  destruct (Z_le_gt_dec ply 5481) as [H | H].
  - left. now apply move_importance_pos.
  - right. symmetry. apply move_importance_overflow. lia.
Qed.

Lemma move_importance_le_1 (ply : Z) : move_importance ply <= 1.
Proof.
  destruct (Z_le_gt_dec ply 5481) as [H | H];
    [| rewrite move_importance_overflow by lia; lra].
  rewrite move_importance_unfold by assumption.
  pose proof (exp_pos (ply_arg ply)) as He.
  assert (ln 1 <= ln (1 + exp (ply_arg ply))) as Hln
    by (apply ln_le_mono; lra).
  rewrite ln_1 in Hln.
  apply Rle_trans with (exp 0); [apply exp_le_mono | rewrite exp_0; lra].
  unfold Skew. nra.
Qed.

Lemma move_importance_antitone (p q : Z) :
  (p <= q)%Z -> move_importance q <= move_importance p.
Proof.
  intros Hpq.
  destruct (Z_le_gt_dec q 5481) as [H | H];
    [| rewrite (move_importance_overflow q) by lia; apply move_importance_nonneg].
  rewrite !move_importance_unfold by lia.
  apply exp_le_mono.
  pose proof (exp_pos (ply_arg p)) as Hp.
  assert (ln (1 + exp (ply_arg p)) <= ln (1 + exp (ply_arg q))) as Hln.
  { apply ln_le_mono; [lra |].
    apply Rplus_le_compat_l, exp_le_mono, ply_arg_mono, Hpq. }
  unfold Skew. nra.
Qed.



End Importance.

(** ** Truncation *)

Section Truncation.
Local Open Scope R_scope.

Lemma Int_part_mono (x y : R) : x <= y -> (Int_part x <= Int_part y)%Z.
Proof.
  intros Hxy.
  destruct (base_Int_part x) as [Hx _], (base_Int_part y) as [_ Hy].
  apply Z.lt_succ_r, lt_IZR. rewrite succ_IZR. lra.
Qed.

Lemma Int_part_IZR (n : Z) : Int_part (IZR n) = n.
Proof. symmetry. apply Int_part_spec. lra. Qed.

Lemma int_of_double_IZR (n : Z) : int_of_double (IZR n) = n.
Proof.
  unfold int_of_double. destruct (Rle_dec 0 (IZR n)) as [H | H].
  - apply Int_part_IZR.
  - rewrite <- opp_IZR, Int_part_IZR. lia.
Qed.

Lemma int_of_double_mono (x y : R) :
  x <= y -> (int_of_double x <= int_of_double y)%Z.
Proof.
  intros Hxy. unfold int_of_double.
  destruct (Rle_dec 0 x) as [Hx | Hx], (Rle_dec 0 y) as [Hy | Hy]; try lra.
  - now apply Int_part_mono.
  - assert (Int_part 0 <= Int_part (- x))%Z as H1 by (apply Int_part_mono; lra).
    assert (Int_part 0 <= Int_part y)%Z as H2 by (apply Int_part_mono; lra).
    change 0 with (IZR 0) in H1, H2. rewrite Int_part_IZR in H1, H2. lia.
  - assert (Int_part (- y) <= Int_part (- x))%Z by (apply Int_part_mono; lra).
    lia.
Qed.

Lemma int_of_double_le (x : R) (n : Z) : x <= IZR n -> (int_of_double x <= n)%Z.
Proof.
  intros H. rewrite <- (int_of_double_IZR n). now apply int_of_double_mono.
Qed.

Lemma int_of_double_ge (x : R) (n : Z) : IZR n <= x -> (n <= int_of_double x)%Z.
Proof.
  intros H. rewrite <- (int_of_double_IZR n) at 1. now apply int_of_double_mono.
Qed.


End Truncation.

(** ** The loop over the other moves *)

Section Loop.
Local Open Scope R_scope.

Lemma importance_loop_acc (ply i : Z) (n : nat) (acc : R) :
  importance_loop ply i n acc = acc + importance_loop ply i n 0.
Proof.
  revert i acc. induction n as [| n IH]; intros i acc; cbn [importance_loop].
  - lra.
  - rewrite (IH _ (acc + _)), (IH _ (0 + _)). lra.
Qed.

Lemma importance_loop_nonneg (ply i : Z) (n : nat) :
  0 <= importance_loop ply i n 0.
Proof.
  revert i. induction n as [| n IH]; intros i; cbn [importance_loop].
  - lra.
  - rewrite importance_loop_acc.
    pose proof (move_importance_nonneg (ply + 2 * i)). specialize (IH (i + 1)%Z).
    lra.
Qed.

Lemma otherMovesImportance_nonneg (ply movesToGo : Z) :
  0 <= otherMovesImportance ply movesToGo.
Proof. apply importance_loop_nonneg. Qed.

Lemma otherMovesImportance_empty (ply movesToGo : Z) :
  (movesToGo <= 1)%Z -> otherMovesImportance ply movesToGo = 0.
Proof.
  intros H. unfold otherMovesImportance.
  replace (Z.to_nat (movesToGo - 1)) with O by lia. reflexivity.
Qed.





End Loop.

(** ** The calculator [remaining] *)

Section Calculator.
Local Open Scope R_scope.

Lemma ddiv_Some (x y : R) : y <> 0 -> ddiv x y = Some (x / y).
Proof. intros H. unfold ddiv. destruct (Req_dec_T y 0); [contradiction | reflexivity]. Qed.

Lemma ddiv_None (x : R) : ddiv x 0 = None.
Proof. unfold ddiv. destruct (Req_dec_T 0 0); [reflexivity | contradiction]. Qed.

Lemma remaining_eq (T : TimeType) (myTime myInc movesToGo ply slowMover : Z) :
  let mi := moveImportance (Z.min ply 200) slowMover in
  let omi := otherMovesImportance (Z.min ply 200) movesToGo in
  mi <> 0 -> TMaxRatio T * mi + omi <> 0 -> mi + omi <> 0 ->
  remaining T myTime myInc movesToGo ply slowMover
  = Some (Z.min (int_of_double (calculated T myTime myInc mi omi)) myTime).
Proof.
  intros mi omi H1 H2 H3.
  unfold remaining, expectedTime, ratio1, ratio2.
  fold mi omi. rewrite !ddiv_Some by assumption. reflexivity.
Qed.

Lemma moveImportance_zero (ply : Z) : moveImportance ply 0 = 0.
Proof. unfold moveImportance. lra. Qed.

Lemma remaining_zero_slowMover (T : TimeType) (myTime myInc movesToGo ply : Z) :
  remaining T myTime myInc movesToGo ply 0 = None.
Proof.
  unfold remaining, expectedTime. rewrite moveImportance_zero, ddiv_None.
  reflexivity.
Qed.

(** [ply] is capped at 200 in [remaining], far below the overflow of [exp]. *)
Lemma moveImportance_positive (ply slowMover : Z) :
  (ply <= 5481)%Z -> (0 < slowMover)%Z -> 0 < moveImportance ply slowMover.
Proof.
  intros Hp H. apply IZR_lt in H. pose proof (move_importance_pos ply Hp).
  unfold moveImportance. nra.
Qed.

Lemma TMaxRatio_ge_1 (T : TimeType) : 1 <= TMaxRatio T.
Proof. destruct T; unfold TMaxRatio, MaxRatio; lra. Qed.

Lemma TStealRatio_range (T : TimeType) : 0 <= TStealRatio T <= 1.
Proof. destruct T; unfold TStealRatio, StealRatio; lra. Qed.

Lemma Rdiv_le_cross (a b c d : R) :
  0 < b -> 0 < d -> a * d <= c * b -> a / b <= c / d.
Proof.
  intros Hb Hd H.
  apply Rmult_le_reg_r with (r := b * d); [nra |].
  unfold Rdiv.
  replace (a * / b * (b * d)) with (a * d * (b * / b)) by ring.
  replace (c * / d * (b * d)) with (c * b * (d * / d)) by ring.
  rewrite !Rinv_r by lra. lra.
Qed.

Lemma Rdiv_pos_pos (a b : R) : 0 < a -> 0 < b -> 0 < a / b.
Proof. intros Ha Hb. apply Rmult_lt_0_compat; [| apply Rinv_0_lt_compat]; assumption. Qed.

Lemma Rdiv_le_1_pos (a b : R) : 0 < b -> a <= b -> a / b <= 1.
Proof.
  intros Hb H. replace 1 with (1 / 1) by lra.
  apply Rdiv_le_cross; lra.
Qed.

(** The two ratios for a positive [moveImportance] and a sum that is not
    negative. *)
Section Share.

Variables (T : TimeType) (mi omi : R).
Hypothesis Hmi : 0 < mi.
Hypothesis Homi : 0 <= omi.

Lemma share_range : 0 < share T mi omi <= 1.
Proof.
  pose proof (TMaxRatio_ge_1 T) as Hm. pose proof (TStealRatio_range T) as Hs.
  assert (0 < TMaxRatio T * mi) by nra.
  assert (0 <= TStealRatio T * omi <= omi) by nra.
  unfold share. split.
  - apply Rmin_glb_lt; apply Rdiv_pos_pos; lra.
  - eapply Rle_trans; [apply Rmin_l |]. apply Rdiv_le_1_pos; lra.
Qed.

Lemma share_optimum_le_max : share OptimumTime mi omi <= share MaxTime mi omi.
Proof.
  unfold share, TMaxRatio, TStealRatio, MaxRatio, StealRatio.
  apply Rmin_glb.
  - eapply Rle_trans; [apply Rmin_l |]. apply Rdiv_le_cross; nra.
  - eapply Rle_trans; [apply Rmin_r |]. apply Rdiv_le_cross; nra.
Qed.

End Share.

Lemma calculated_share (T : TimeType) (myTime myInc : Z) (mi omi : R) :
  calculated T myTime myInc mi omi
  = (IZR myTime + IZR myInc * omi / mi) * share T mi omi.
Proof. reflexivity. Qed.

(** With a positive slow mover no divisor is zero. *)
Lemma remaining_positive_slowMover (T : TimeType)
    (myTime myInc movesToGo ply slowMover : Z) :
  (0 < slowMover)%Z ->
  remaining T myTime myInc movesToGo ply slowMover
  = Some (Z.min (int_of_double
                   (calculated T myTime myInc
                      (moveImportance (Z.min ply 200) slowMover)
                      (otherMovesImportance (Z.min ply 200) movesToGo)))
                myTime).
Proof.
  intros Hs.
  pose proof (moveImportance_positive (Z.min ply 200) _ ltac:(lia) Hs) as Hmi.
  pose proof (otherMovesImportance_nonneg (Z.min ply 200) movesToGo) as Homi.
  pose proof (TMaxRatio_ge_1 T) as Hm.
  apply remaining_eq; nra.
Qed.

End Calculator.

(** Names the two importances of the goal and adds their signs, for a positive
    slow mover [Hs]. *)
Tactic Notation "importances" constr(Hs) "as"
    ident(mi) ident(omi) ident(Hmi) ident(Homi) :=
  match goal with
  | |- context [calculated _ _ _ (moveImportance ?p ?s) (otherMovesImportance ?p ?g)] =>
      pose proof (moveImportance_positive p s ltac:(lia) Hs) as Hmi;
      pose proof (otherMovesImportance_nonneg p g) as Homi;
      rewrite ?calculated_share;
      set (mi := moveImportance p s) in *;
      set (omi := otherMovesImportance p g) in *
  | |- context [share _ (moveImportance ?p ?s) (otherMovesImportance ?p ?g)] =>
      pose proof (moveImportance_positive p s ltac:(lia) Hs) as Hmi;
      pose proof (otherMovesImportance_nonneg p g) as Homi;
      set (mi := moveImportance p s) in *;
      set (omi := otherMovesImportance p g) in *
  end.

(** Decides a range condition on concrete arguments. *)
Ltac in_range :=
  unfold init_in_range, remaining_in_range, game_arguments, is_int,
    INT_MAX, INT_MIN, MoveHorizon;
  cbn; lia.

Section CalculatorOrder.
Local Open Scope R_scope.


(** No time and no increment give 0. *)
Lemma remaining_zero_clock (T : TimeType) (movesToGo ply slowMover : Z) :
  (0 < slowMover)%Z -> remaining T 0 0 movesToGo ply slowMover = Some 0%Z.
Proof.
  intros Hs. rewrite remaining_positive_slowMover by assumption.
  rewrite calculated_share.
  replace ((0 + 0 * _ / _) * _) with (IZR 0).
  - rewrite int_of_double_IZR. reflexivity.
  - unfold Rdiv. ring.
Qed.

(** What [remaining] returns never exceeds [myTime]. *)
Lemma remaining_capped (T : TimeType) (myTime myInc movesToGo ply slowMover r : Z) :
  remaining T myTime myInc movesToGo ply slowMover = Some r -> (r <= myTime)%Z.
Proof.
  unfold remaining.
  destruct (expectedTime _ _ _ _) as [e |]; [| discriminate].
  destruct (ratio1 _ _ _) as [r1 |]; [| discriminate].
  destruct (ratio2 _ _ _) as [r2 |]; [| discriminate].
  cbn [bind]. intros [= <-]. apply Z.le_min_r.
Qed.

End CalculatorOrder.

(** ** The calculator outside its intended inputs *)

Section CalculatorEdge.
Local Open Scope R_scope.








End CalculatorEdge.

(** ** [init] *)

Section Init.

Lemma get_put (a : ByColor) (c : Color) (v : Z) : get (put a c v) c = v.
Proof. destruct c; reflexivity. Qed.

Lemma put_put (a : ByColor) (c : Color) (v w : Z) :
  put (put a c v) c w = put a c w.
Proof. destruct c; reflexivity. Qed.

(** [init] in terms of the two calls of [remaining]. *)
Lemma init_Some (Options : OptionsMap) (tm : TimeManagement) (limits : LimitsType)
    (us : Color) (ply a b : Z) :
  let tm1 := fst (nodes_as_time Options tm limits us) in
  let l1 := snd (nodes_as_time Options tm limits us) in
  let m := Minimum_Thinking_Time Options in
  remaining OptimumTime (myTime_of Options l1 us) (get (inc l1) us) (hypMTG l1)
    ply (Slow_Mover Options) = Some a ->
  remaining MaxTime (myTime_of Options l1 us) (get (inc l1) us) (hypMTG l1)
    ply (Slow_Mover Options) = Some b ->
  init Options tm limits us ply
  = Some ({| tm_startTime := startTime l1;
             optimumTime :=
               if Ponder Options then Z.max a m + Z.max a m ÷ 4 else Z.max a m;
             maximumTime := Z.max b m;
             availableNodes := availableNodes tm1 |}, l1).
Proof.
  intros tm1 l1 m Ha Hb. subst tm1 l1 m. unfold init.
  destruct (nodes_as_time Options tm limits us) as [tm1 l1].
  cbn [fst snd] in *. rewrite Ha, Hb. reflexivity.
Qed.

(** The one-shot latch of [availableNodes]: written when it is zero, kept
    otherwise, and read as the clock either way. *)
Lemma nodes_as_time_latch (Options : OptionsMap) (tm : TimeManagement)
    (limits : LimitsType) (us : Color) :
  nodestime Options <> 0 ->
  let tm1 := fst (nodes_as_time Options tm limits us) in
  let l1 := snd (nodes_as_time Options tm limits us) in
  availableNodes tm1
  = (if availableNodes tm =? 0
     then nodestime Options * get (time limits) us
     else availableNodes tm)
  /\ get (time l1) us = to_int (availableNodes tm1)
  /\ get (inc l1) us = get (inc limits) us * nodestime Options
  /\ npmsec l1 = nodestime Options.
Proof.
  intros Hn. unfold nodes_as_time.
  destruct (Z.eqb_spec (nodestime Options) 0) as [E | _]; [contradiction |].
  cbn [fst snd time inc npmsec]. rewrite !get_put.
  destruct (availableNodes tm =? 0); cbn [availableNodes]; auto.
Qed.

Lemma nodes_as_time_off (Options : OptionsMap) (tm : TimeManagement)
    (limits : LimitsType) (us : Color) :
  nodestime Options = 0 -> nodes_as_time Options tm limits us = (tm, limits).
Proof. intros E. unfold nodes_as_time. rewrite E. reflexivity. Qed.


Lemma to_int_small (v : Z) : - 2 ^ 31 <= v < 2 ^ 31 -> to_int v = v.
Proof. intros H. unfold to_int. rewrite Z.mod_small; lia. Qed.

Lemma quarter_more_mono (x y : Z) : x <= y -> x + x ÷ 4 <= y + y ÷ 4.
Proof.
  intros H. apply Z.add_le_mono; [assumption |].
  apply Z.quot_le_mono; lia.
Qed.

End Init.

Section LastMove.
Local Open Scope R_scope.

Lemma moveImportance_nonzero (ply slowMover : Z) :
  (ply <= 5481)%Z -> slowMover <> 0%Z -> moveImportance ply slowMover <> 0.
Proof.
  intros Hply Hs. pose proof (move_importance_pos ply Hply) as Hp.
  assert (IZR slowMover <> 0) as Hr by (now apply not_0_IZR).
  unfold moveImportance. intros E.
  assert (move_importance ply * IZR slowMover = 0) as E' by lra.
  apply Rmult_integral in E'. destruct E'; [lra | contradiction].
Qed.

(** With no other move to plan for, the three doubles of [remaining]. *)
Lemma last_move_doubles (T : TimeType) (myTime myInc : Z) (mi : R) :
  mi <> 0 ->
  expectedTime myTime myInc mi 0 = Some (IZR myTime)
  /\ ratio1 T mi 0 = Some 1 /\ ratio2 T mi 0 = Some 1.
Proof.
  intros Hmi. pose proof (TMaxRatio_ge_1 T) as Hm.
  assert (TMaxRatio T * mi <> 0) as Hd.
  { intros E. apply Rmult_integral in E. destruct E; [lra | contradiction]. }
  unfold expectedTime, ratio1, ratio2.
  rewrite (ddiv_Some _ mi) by assumption.
  rewrite (ddiv_Some _ (TMaxRatio T * mi + 0)) by (rewrite Rplus_0_r; assumption).
  rewrite (ddiv_Some _ (mi + 0)) by (rewrite Rplus_0_r; assumption).
  cbn [bind]. repeat split; f_equal; field; repeat split; try assumption; lra.
Qed.

Lemma remaining_last_move (T : TimeType) (myTime myInc movesToGo ply slowMover : Z) :
  (movesToGo <= 1)%Z -> slowMover <> 0%Z ->
  remaining T myTime myInc movesToGo ply slowMover = Some myTime.
Proof.
  intros Hm Hs. unfold remaining.
  rewrite otherMovesImportance_empty by assumption.
  destruct (last_move_doubles T myTime myInc _
              (moveImportance_nonzero (Z.min ply 200) _ ltac:(lia) Hs)) as (-> & -> & ->).
  cbn [bind]. rewrite Rmin_left, Rmult_1_r, int_of_double_IZR by lra.
  f_equal. lia.
Qed.

(** The floors keep the order of the two budgets even when the expected time
    is negative. *)
Lemma remaining_floor_order (myTime myInc movesToGo ply slowMover m : Z) :
  (0 < slowMover)%Z -> (0 <= m)%Z ->
  exists a b : Z,
    remaining OptimumTime myTime myInc movesToGo ply slowMover = Some a /\
    remaining MaxTime myTime myInc movesToGo ply slowMover = Some b /\
    (Z.max a m <= Z.max b m)%Z.
Proof.
  intros Hs Hm0.
  rewrite !remaining_positive_slowMover by assumption.
  do 2 eexists. split; [reflexivity |]. split; [reflexivity |].
  rewrite !calculated_share.
  importances Hs as mi omi Hmi Homi.
  pose proof (share_range OptimumTime mi omi Hmi Homi) as [Ho1 Ho2].
  pose proof (share_range MaxTime mi omi Hmi Homi) as [Hm1 Hm2].
  pose proof (share_optimum_le_max mi omi Hmi Homi) as Hom.
  set (e := IZR myTime + IZR myInc * omi / mi).
  destruct (Rle_dec 0 e) as [He | He].
  - apply Z.max_le_compat_r, Z.min_le_compat_r, int_of_double_mono. nra.
  - assert (int_of_double (e * share OptimumTime mi omi) <= 0)%Z
      by (apply int_of_double_le; nra).
    assert (int_of_double (e * share MaxTime mi omi) <= 0)%Z
      by (apply int_of_double_le; nra).
    lia.
Qed.

End LastMove.

(** ** The range of [int] *)

Section Range.
Local Open Scope R_scope.





End Range.

Section InitRange.

Lemma hypMTG_le (limits : LimitsType) : hypMTG limits <= MoveHorizon.
Proof.
  unfold hypMTG. destruct (movestogo limits =? 0); [reflexivity | apply Z.le_min_r].
Qed.



End InitRange.

(** * The claims *)

(** ** C7, C4, C8, C9, C10: the importance model and the calculator *)

(** C7 as stated fails: at ply 5482 the argument of [exp] is above
    [ln(DBL_MAX)], [exp] overflows and the importance is 0, not strictly
    positive. *)
Lemma move_importance_zero_at_overflow :
  0 <= 5482 /\ move_importance 5482 = 0%R.
Proof. split; [lia | apply move_importance_overflow; lia]. Qed.

(** C7, amended. For every ply [p >= 0], [move_importance p] is at least 0
    and at most 1; it is strictly positive up to ply 5481 and 0 from ply 5482
    on; and beyond the shift constant 58.4 the importance does not increase
    with the ply. *)
Theorem move_importance_range_monotone (p q : Z) :
  0 <= p ->
  (0 <= move_importance p <= 1)%R
  /\ (p <= 5481 -> (0 < move_importance p)%R)
  /\ (5482 <= p -> move_importance p = 0%R)
  /\ ((PlyShift < IZR p)%R -> p <= q -> (move_importance q <= move_importance p)%R).
Proof.
  intros _. repeat apply conj.
  - apply move_importance_nonneg.
  - apply move_importance_le_1.
  - apply move_importance_pos.
  - apply move_importance_overflow.
  - intros _ Hpq. now apply move_importance_antitone.
Qed.

Lemma move_importance_range_monotone_witness :
  0 <= 59
  /\ (0 < move_importance 59 <= 1)%R
  /\ (move_importance 60 <= move_importance 59)%R.
Proof.
  split; [lia |].
  destruct (move_importance_range_monotone 59 60) as ([_ H1] & Hp & _ & Hm);
    [lia |].
  split; [split; [apply Hp; lia | exact H1] |].
  apply Hm; [unfold PlyShift; lra | lia].
Defined.

(** C4 as stated fails: with a slow mover of 0 the divisor [moveImportance]
    is 0 and the first division of [remaining] has no finite value. *)
Lemma moveImportance_zero_slowMover :
  moveImportance (Z.min 10 200) 0 = 0%R
  /\ expectedTime 60000 1000 (moveImportance (Z.min 10 200) 0)
       (otherMovesImportance (Z.min 10 200) 100) = None.
Proof.
  split; [apply moveImportance_zero |].
  unfold expectedTime. rewrite moveImportance_zero, ddiv_None. reflexivity.
Qed.

(** C4, amended. For a strictly positive slow mover, [moveImportance] is
    strictly positive, so are the divisors of [ratio1] and [ratio2], and the
    three divisions of [remaining] are defined. *)
Theorem moveImportance_divisors_positive (T : TimeType)
    (myTime myInc movesToGo ply slowMover : Z) :
  0 < slowMover ->
  let mi := moveImportance (Z.min ply 200) slowMover in
  let omi := otherMovesImportance (Z.min ply 200) movesToGo in
  (0 < mi)%R /\ (0 < TMaxRatio T * mi + omi)%R /\ (0 < mi + omi)%R
  /\ expectedTime myTime myInc mi omi = Some (IZR myTime + IZR myInc * omi / mi)%R
  /\ ratio1 T mi omi = Some (TMaxRatio T * mi / (TMaxRatio T * mi + omi))%R
  /\ ratio2 T mi omi = Some ((mi + TStealRatio T * omi) / (mi + omi))%R.
Proof.
  intros Hs mi omi.
  pose proof (moveImportance_positive (Z.min ply 200) _ ltac:(lia) Hs) as Hmi. fold mi in Hmi.
  pose proof (otherMovesImportance_nonneg (Z.min ply 200) movesToGo) as Homi.
  fold omi in Homi.
  pose proof (TMaxRatio_ge_1 T) as Hm.
  assert (0 < TMaxRatio T * mi + omi)%R as H1 by nra.
  assert (0 < mi + omi)%R as H2 by lra.
  repeat split; try assumption.
  - unfold expectedTime. rewrite ddiv_Some by lra. reflexivity.
  - unfold ratio1. apply ddiv_Some. lra.
  - unfold ratio2. apply ddiv_Some. lra.
Qed.

Lemma moveImportance_divisors_positive_witness :
  0 < 89
  /\ (0 < moveImportance (Z.min 10 200) 89)%R
  /\ ratio1 MaxTime (moveImportance (Z.min 10 200) 89)
       (otherMovesImportance (Z.min 10 200) 100)
     = Some (TMaxRatio MaxTime * moveImportance (Z.min 10 200) 89
             / (TMaxRatio MaxTime * moveImportance (Z.min 10 200) 89
                + otherMovesImportance (Z.min 10 200) 100))%R.
Proof.
  split; [lia |].
  destruct (moveImportance_divisors_positive MaxTime 60000 1000 100 10 89)
    as (H1 & _ & _ & _ & H5 & _); [lia |].
  split; [exact H1 | exact H5].
Defined.

(** C8 as stated fails: on the last move before the time control with a slow
    mover of 0, [ratio1] is 0/0 and [remaining] has no defined result. *)
Lemma remaining_last_move_zero_slowMover :
  ratio1 OptimumTime (moveImportance (Z.min 30 200) 0)
    (otherMovesImportance (Z.min 30 200) 1) = None
  /\ remaining OptimumTime 10000 0 1 30 0 = None.
Proof.
  split; [| apply remaining_zero_slowMover].
  rewrite otherMovesImportance_empty by lia.
  unfold ratio1. rewrite moveImportance_zero.
  replace (TMaxRatio OptimumTime * 0 + 0)%R with 0%R by (unfold TMaxRatio; lra).
  apply ddiv_None.
Qed.

(** C8, amended. When [movesToGo <= 1] and the slow mover is not 0, the sum
    [otherMovesImportance] is 0, [expectedTime] is [myTime], both ratios are 1
    and [remaining] returns [myTime], in both modes. *)
Theorem remaining_single_move (T : TimeType)
    (myTime myInc movesToGo ply slowMover : Z) :
  movesToGo <= 1 -> slowMover <> 0 ->
  let mi := moveImportance (Z.min ply 200) slowMover in
  let omi := otherMovesImportance (Z.min ply 200) movesToGo in
  omi = 0%R
  /\ expectedTime myTime myInc mi omi = Some (IZR myTime)
  /\ ratio1 T mi omi = Some 1%R
  /\ ratio2 T mi omi = Some 1%R
  /\ remaining T myTime myInc movesToGo ply slowMover = Some myTime.
Proof.
  intros Hm Hs mi omi.
  assert (omi = 0%R) as E by (now apply otherMovesImportance_empty).
  split; [exact E |]. rewrite E.
  destruct (last_move_doubles T myTime myInc mi
              (moveImportance_nonzero (Z.min ply 200) _ ltac:(lia) Hs)) as (H1 & H2 & H3).
  repeat split; try assumption.
  now apply remaining_last_move.
Qed.

Lemma remaining_single_move_witness :
  1 <= 1 /\ 89 <> 0
  /\ remaining OptimumTime 10000 0 1 30 89 = Some 10000
  /\ remaining MaxTime 10000 0 1 30 89 = Some 10000.
Proof.
  split; [lia |]. split; [lia |]. split.
  - apply (remaining_single_move OptimumTime 10000 0 1 30 89); lia.
  - apply (remaining_single_move MaxTime 10000 0 1 30 89); lia.
Defined.

(** C9. In both modes, whatever [remaining] returns is at most its [myTime]
    argument; and it does return for every input with a positive slow mover
    (with a slow mover of 0 the double converted to [int] is not a finite
    number and the C++ conversion is undefined). *)
Theorem remaining_le_myTime (T : TimeType)
    (myTime myInc movesToGo ply slowMover : Z) :
  (forall r : Z,
      remaining T myTime myInc movesToGo ply slowMover = Some r -> r <= myTime)
  /\ (0 < slowMover ->
      exists r : Z,
        remaining T myTime myInc movesToGo ply slowMover = Some r /\ r <= myTime).
Proof.
  split.
  - intros r. apply remaining_capped.
  - intros Hs. rewrite remaining_positive_slowMover by assumption.
    eexists. split; [reflexivity | apply Z.le_min_r].
Qed.

Lemma remaining_le_myTime_witness :
  exists r : Z, remaining MaxTime 60000 1000 100 10 89 = Some r /\ r <= 60000.
Proof.
  apply (remaining_le_myTime MaxTime 60000 1000 100 10 89). lia.
Defined.




(** ** C1, C2, C3, C5, C6: [init] *)










(** C5 on the code: in node-rate mode (nodestime 1) a first call with an empty
    clock latches [availableNodes = 0]; the next call of the session finds the
    latch at 0, writes it again from the new clock (5000) and uses that value
    as its time. *)
Theorem init_latch_written_again :
  let Options := {| Minimum_Thinking_Time := 20; Move_Overhead := 30;
                    Slow_Mover := 89; nodestime := 1; Ponder := false |} in
  let st1 := {| tm_startTime := 0; optimumTime := 20; maximumTime := 20;
                availableNodes := 0 |} in
  let st2 := {| tm_startTime := 0; optimumTime := 4970; maximumTime := 4970;
                availableNodes := 5000 |} in
  let l1 := {| time := {| white := 0; black := 0 |};
               inc := {| white := 0; black := 0 |};
               npmsec := 1; movestogo := 0; startTime := 0 |} in
  let l2 := {| time := {| white := 5000; black := 5000 |};
               inc := {| white := 0; black := 0 |};
               npmsec := 1; movestogo := 1; startTime := 0 |} in
  init Options Time0 (go 0 0 0) WHITE 30 = Some (st1, l1)
  /\ init Options st1 (go 5000 0 1) WHITE 32 = Some (st2, l2)
  /\ availableNodes st1 = 1 * get (time (go 0 0 0)) WHITE
  /\ availableNodes st2 = 5000
  /\ get (time l2) WHITE = 5000.
Proof.
  split; [| split; [| repeat split]].
  - rewrite (init_Some _ _ _ _ _ 0 0); [reflexivity | |];
      apply remaining_zero_clock; reflexivity.
  - rewrite (init_Some _ _ _ _ _ 4970 4970); [reflexivity | |];
      apply remaining_last_move; vm_compute; discriminate.
Qed.

(** The latch where it holds: once [availableNodes] is not 0, a call in
    node-rate mode keeps it and takes it, not the clock of [limits], as its
    time. *)
Lemma init_latch_kept (Options : OptionsMap) (tm : TimeManagement)
    (limits : LimitsType) (us : Color) (ply : Z) :
  0 < Slow_Mover Options -> nodestime Options <> 0 -> availableNodes tm <> 0 ->
  exists (tm' : TimeManagement) (limits' : LimitsType),
    init Options tm limits us ply = Some (tm', limits')
    /\ availableNodes tm' = availableNodes tm
    /\ get (time limits') us = to_int (availableNodes tm).
Proof.
  intros Hs Hn Ha.
  set (l1 := snd (nodes_as_time Options tm limits us)).
  destruct (remaining_floor_order (myTime_of Options l1 us) (get (inc l1) us)
              (hypMTG l1) ply _ 0 Hs (Z.le_refl 0)) as (a & b & Hoa & Hob & _).
  do 2 eexists. split; [apply (init_Some _ _ _ _ _ a b Hoa Hob) |].
  cbn [availableNodes].
  destruct (nodes_as_time_latch Options tm limits us Hn) as (H1 & H2 & _).
  apply Z.eqb_neq in Ha. rewrite Ha in H1.
  rewrite H2, H1. split; reflexivity.
Qed.

(** X4. Over a whole session in node-rate mode: a latch that is not 0 survives
    every later call of [init], whatever clocks the calls are given. *)
Theorem session_latch_kept (Options : OptionsMap)
    (calls : list (LimitsType * Color * Z)) (tm : TimeManagement) :
  0 < Slow_Mover Options -> nodestime Options <> 0 -> availableNodes tm <> 0 ->
  exists tm' : TimeManagement,
    session Options tm calls = Some tm'
    /\ availableNodes tm' = availableNodes tm.
Proof.
  intros Hs Hn. revert tm.
  induction calls as [| [[limits us] ply] calls IH]; intros tm Ha.
  - exists tm. split; reflexivity.
  - destruct (init_latch_kept Options tm limits us ply Hs Hn Ha)
      as (tm1 & l1 & Hi & Hk & _).
    destruct (IH tm1) as (tm' & Hrun & Hk'); [congruence |].
    exists tm'. cbn [session]. rewrite Hi. cbn [bind fst].
    split; [exact Hrun | congruence].
Qed.

Lemma session_latch_kept_witness :
  let Options := {| Minimum_Thinking_Time := 20; Move_Overhead := 30;
                    Slow_Mover := 89; nodestime := 1; Ponder := false |} in
  let tm := {| tm_startTime := 0; optimumTime := 0; maximumTime := 0;
               availableNodes := 5000 |} in
  0 < Slow_Mover Options /\ nodestime Options <> 0 /\ availableNodes tm <> 0
  /\ exists tm' : TimeManagement,
       session Options tm [(go 3000 0 0, WHITE, 10); (go 2000 0 0, BLACK, 11)]
       = Some tm'
       /\ availableNodes tm' = 5000.
Proof.
  split; [cbn; lia |]. split; [cbn; lia |]. split; [cbn; lia |].
  apply (session_latch_kept
           {| Minimum_Thinking_Time := 20; Move_Overhead := 30;
              Slow_Mover := 89; nodestime := 1; Ponder := false |}
           [(go 3000 0 0, WHITE, 10); (go 2000 0 0, BLACK, 11)]
           {| tm_startTime := 0; optimumTime := 0; maximumTime := 0;
              availableNodes := 5000 |}); cbn; lia.
Defined.

(** X5. The first call of a session in node-rate mode (latch at 0, positive
    slow mover, call within [init_in_range]): [availableNodes] becomes the
    rate times the clock, and the clock of the call becomes
    [(int)availableNodes], the same number. *)
Theorem init_latch_first (Options : OptionsMap) (tm : TimeManagement)
    (limits : LimitsType) (us : Color) (ply : Z) :
  0 < Slow_Mover Options -> nodestime Options <> 0 -> availableNodes tm = 0 ->
  init_in_range Options tm limits us ->
  exists (tm' : TimeManagement) (limits' : LimitsType),
    init Options tm limits us ply = Some (tm', limits')
    /\ availableNodes tm' = nodestime Options * get (time limits) us
    /\ get (time limits') us = to_int (availableNodes tm')
    /\ get (time limits') us = nodestime Options * get (time limits) us.
Proof.
  intros Hs Hn Ha Hr.
  set (l1 := snd (nodes_as_time Options tm limits us)).
  destruct (remaining_floor_order (myTime_of Options l1 us) (get (inc l1) us)
              (hypMTG l1) ply _ 0 Hs (Z.le_refl 0)) as (a & b & Hoa & Hob & _).
  do 2 eexists. split; [apply (init_Some _ _ _ _ _ a b Hoa Hob) |].
  cbn [availableNodes].
  destruct (nodes_as_time_latch Options tm limits us Hn) as (H1 & H2 & _).
  rewrite Ha in H1. cbn [Z.eqb] in H1.
  destruct Hr as (Hp & _). rewrite Ha in Hp. cbn [Z.eqb] in Hp.
  rewrite H2, H1. repeat apply conj; try reflexivity.
  apply to_int_small. unfold is_int, INT_MAX, INT_MIN in Hp. lia.
Qed.

Lemma init_latch_first_witness :
  let Options := {| Minimum_Thinking_Time := 20; Move_Overhead := 30;
                    Slow_Mover := 89; nodestime := 2; Ponder := false |} in
  0 < Slow_Mover Options /\ nodestime Options <> 0 /\ availableNodes Time0 = 0
  /\ init_in_range Options Time0 (go 60000 1000 0) WHITE
  /\ exists (tm' : TimeManagement) (limits' : LimitsType),
       init Options Time0 (go 60000 1000 0) WHITE 10 = Some (tm', limits')
       /\ availableNodes tm' = 2 * 60000
       /\ get (time limits') WHITE = to_int (availableNodes tm')
       /\ get (time limits') WHITE = 2 * 60000.
Proof.
  split; [cbn; lia |]. split; [cbn; lia |]. split; [reflexivity |].
  split; [in_range |].
  apply (init_latch_first
           {| Minimum_Thinking_Time := 20; Move_Overhead := 30;
              Slow_Mover := 89; nodestime := 2; Ponder := false |}
           Time0 (go 60000 1000 0) WHITE 10);
    [cbn; lia | cbn; lia | reflexivity | in_range].
Defined.




(** ** Further properties *)

Section SuddenDeath.
Local Open Scope R_scope.


End SuddenDeath.



(** ** More on the importance model and the ratios *)

Section MoreReal.
Local Open Scope R_scope.

Lemma int_of_double_floor (x : R) :
  0 <= x -> IZR (int_of_double x) <= x < IZR (int_of_double x) + 1.
Proof.
  intros Hx. unfold int_of_double.
  destruct (Rle_dec 0 x) as [_ | ?]; [| lra].
  destruct (base_Int_part x). lra.
Qed.

Lemma importance_loop_app (ply i : Z) (n k : nat) (acc : R) :
  importance_loop ply i (n + k) acc
  = importance_loop ply (i + Z.of_nat n) k (importance_loop ply i n acc).
Proof.
  revert i acc. induction n as [| n IH]; intros i acc.
  - cbn [importance_loop Nat.add]. now rewrite Z.add_0_r.
  - cbn [importance_loop Nat.add]. rewrite IH. f_equal. lia.
Qed.

Lemma otherMovesImportance_mono (ply m1 m2 : Z) :
  (m1 <= m2)%Z -> otherMovesImportance ply m1 <= otherMovesImportance ply m2.
Proof.
  intros H. unfold otherMovesImportance.
  replace (Z.to_nat (m2 - 1))
    with (Z.to_nat (m1 - 1) + (Z.to_nat (m2 - 1) - Z.to_nat (m1 - 1)))%nat by lia.
  rewrite importance_loop_app.
  set (x := importance_loop ply 1 (Z.to_nat (m1 - 1)) 0).
  rewrite importance_loop_acc.
  pose proof (importance_loop_nonneg ply (1 + Z.of_nat (Z.to_nat (m1 - 1)))
                (Z.to_nat (m2 - 1) - Z.to_nat (m1 - 1))).
  lra.
Qed.

Lemma moveImportance_mono (ply s1 s2 : Z) :
  (s1 <= s2)%Z -> moveImportance ply s1 <= moveImportance ply s2.
Proof.
  intros H. apply IZR_le in H. pose proof (move_importance_nonneg ply).
  unfold moveImportance. nra.
Qed.

Lemma Rmin_mono (a b c d : R) : a <= c -> b <= d -> Rmin a b <= Rmin c d.
Proof.
  intros H1 H2. apply Rmin_glb.
  - eapply Rle_trans; [apply Rmin_l | exact H1].
  - eapply Rle_trans; [apply Rmin_r | exact H2].
Qed.

Section Ratios.

Variables (T : TimeType) (mi omi : R).
Hypothesis Hmi : 0 < mi.
Hypothesis Homi : 0 <= omi.

(** In Optimum mode both ratios are [mi / (mi + omi)]. *)
Lemma share_optimum_eq : share OptimumTime mi omi = mi / (mi + omi).
Proof.
  unfold share, TMaxRatio, TStealRatio.
  rewrite Rmult_1_l, Rmult_0_l, Rplus_0_r. apply Rmin_left. lra.
Qed.

Lemma share_ge_optimum : share OptimumTime mi omi <= share T mi omi.
Proof. destruct T; [lra | now apply share_optimum_le_max]. Qed.

(** [ratio1] keeps the maximum within [MaxRatio] times the optimum share. *)
Lemma share_max_le_MaxRatio :
  share MaxTime mi omi <= MaxRatio * share OptimumTime mi omi.
Proof.
  rewrite share_optimum_eq.
  unfold share. eapply Rle_trans; [apply Rmin_l |].
  unfold TMaxRatio, MaxRatio.
  replace (7.09 * (mi / (mi + omi))) with (7.09 * mi / (mi + omi))
    by (field; lra).
  apply Rdiv_le_cross; nra.
Qed.

(** [ratio2] lets the maximum take at most [StealRatio] of what the optimum
    share leaves. *)
Lemma share_max_le_StealRatio :
  share MaxTime mi omi
  <= share OptimumTime mi omi + StealRatio * (1 - share OptimumTime mi omi).
Proof.
  rewrite share_optimum_eq.
  unfold share. eapply Rle_trans; [apply Rmin_r |].
  unfold TStealRatio, StealRatio. right. field. lra.
Qed.

Lemma share_mono_mi (mi' : R) : mi <= mi' -> share T mi omi <= share T mi' omi.
Proof.
  intros H.
  assert (0 <= omi * (mi' - mi)) by (apply Rmult_le_pos; lra).
  unfold share.
  destruct T; unfold TMaxRatio, TStealRatio, MaxRatio, StealRatio;
    apply Rmin_mono; apply Rdiv_le_cross; nra.
Qed.

Lemma share_anti_omi (omi' : R) : omi <= omi' -> share T mi omi' <= share T mi omi.
Proof.
  intros H.
  assert (0 <= mi * (omi' - omi)) by (apply Rmult_le_pos; lra).
  unfold share.
  destruct T; unfold TMaxRatio, TStealRatio, MaxRatio, StealRatio;
    apply Rmin_mono; apply Rdiv_le_cross; nra.
Qed.

End Ratios.

End MoreReal.

(** ** More on [move_importance] and [remaining] *)

(** X6. From the first ply up to the overflow of [exp], a later move always
    weighs strictly less than an earlier one, and every move weighs strictly
    less than 1. *)
Theorem move_importance_strictly_decreasing (p q : Z) :
  0 <= p <= 5481 -> p < q ->
  (move_importance q < move_importance p)%R /\ (move_importance p < 1)%R.
Proof.
  intros [Hp0 Hp1] Hpq.
  pose proof (exp_pos (ply_arg p)) as Hp.
  assert (0 < ln (1 + exp (ply_arg p)))%R as Hpos.
  { rewrite <- ln_1. apply ln_increasing; lra. }
  split.
  - destruct (Z_le_gt_dec q 5481) as [Hq | Hq].
    + rewrite !move_importance_unfold by lia.
      assert (ply_arg p < ply_arg q)%R as Harg.
      { apply IZR_lt in Hpq. unfold ply_arg, PlyScale, PlyShift. lra. }
      assert (ln (1 + exp (ply_arg p)) < ln (1 + exp (ply_arg q)))%R as Hln.
      { apply ln_increasing; [lra |].
        apply Rplus_lt_compat_l, exp_increasing, Harg. }
      apply exp_increasing. unfold Skew. nra.
    + rewrite (move_importance_overflow q) by lia.
      apply move_importance_pos. lia.
  - rewrite move_importance_unfold by lia.
    apply Rlt_le_trans with (exp 0); [| rewrite exp_0; lra].
    apply exp_increasing. unfold Skew. nra.
Qed.

Lemma move_importance_strictly_decreasing_witness :
  0 <= 30 <= 5481 /\ 30 < 32
  /\ (move_importance 32 < move_importance 30)%R /\ (move_importance 30 < 1)%R.
Proof.
  split; [lia |]. split; [lia |].
  apply (move_importance_strictly_decreasing 30 32); lia.
Defined.

(** With an increment that is not negative the double that is converted lies
    between the smaller of increment and clock, and above: it is the share of
    a mean of the two. *)
Lemma remaining_at_least_min (T : TimeType)
    (myTime myInc movesToGo ply slowMover : Z) :
  0 < slowMover -> 0 <= myInc ->
  exists r : Z,
    remaining T myTime myInc movesToGo ply slowMover = Some r
    /\ Z.min myInc myTime <= r <= myTime.
Proof.
  intros Hs Hi.
  rewrite remaining_positive_slowMover by assumption.
  eexists. split; [reflexivity |]. split; [| apply Z.le_min_r].
  apply Z.min_glb; [| apply Z.le_min_r].
  apply int_of_double_ge.
  importances Hs as mi omi Hmi Homi.
  destruct (share_range T mi omi Hmi Homi) as [Hsh0 Hsh1].
  pose proof (share_ge_optimum T mi omi Hmi Homi) as Hge.
  rewrite (share_optimum_eq mi omi) in Hge.
  assert (IZR (Z.min myInc myTime) <= IZR myInc)%R as Hm1
    by (apply IZR_le, Z.le_min_l).
  assert (IZR (Z.min myInc myTime) <= IZR myTime)%R as Hm2
    by (apply IZR_le, Z.le_min_r).
  apply IZR_le in Hi.
  set (m := IZR (Z.min myInc myTime)) in *.
  assert (0 <= IZR myInc * omi / mi)%R as Hq.
  { apply Rmult_le_pos; [nra | left; now apply Rinv_0_lt_compat]. }
  set (e := (IZR myTime + IZR myInc * omi / mi)%R) in *.
  destruct (Rle_dec 0 e) as [He | He].
  - apply Rle_trans with (e * (mi / (mi + omi)))%R; [| nra].
    replace (e * (mi / (mi + omi)))%R
      with ((IZR myTime * mi + IZR myInc * omi) / (mi + omi))%R
      by (unfold e; field; lra).
    replace m with (m / 1)%R by lra.
    apply Rdiv_le_cross; nra.
  - unfold e in *. nra.
Qed.

(** X2. Within [remaining_in_range] the result lies between the smaller of
    increment and clock, less the one unit that the rounding of the doubles
    can cost at the truncation, and the clock: a move is given its increment
    whenever the clock holds it, and the whole clock once the increment
    reaches the clock. *)
Theorem remaining_between_increment_and_clock (T : TimeType)
    (myTime myInc movesToGo ply slowMover : Z) :
  0 < slowMover -> remaining_in_range myTime myInc movesToGo ->
  exists r : Z,
    remaining T myTime myInc movesToGo ply slowMover = Some r
    /\ Z.min myInc myTime - 1 <= r <= myTime
    /\ is_int r.
Proof.
  intros Hs Hr.
  destruct (remaining_at_least_min T myTime myInc movesToGo ply slowMover Hs)
    as (r & Hrem & Hlo & Hhi); [apply Hr |].
  exists r. split; [exact Hrem |].
  destruct Hr as (Ht1 & Ht2 & Hi1 & _).
  unfold is_int, INT_MAX, INT_MIN in *. lia.
Qed.

Lemma remaining_between_increment_and_clock_witness :
  0 < 89 /\ remaining_in_range 60000 1000 100
  /\ exists r : Z,
       remaining OptimumTime 60000 1000 100 10 89 = Some r
       /\ Z.min 1000 60000 - 1 <= r <= 60000
       /\ is_int r.
Proof.
  split; [lia |]. split; [in_range |].
  apply (remaining_between_increment_and_clock OptimumTime 60000 1000 100 10 89);
    [lia | in_range].
Defined.

(** More time on the clock never lowers the result. *)
Lemma remaining_mono_time (T : TimeType)
    (time1 time2 myInc movesToGo ply slowMover : Z) :
  0 < slowMover -> time1 <= time2 ->
  exists r1 r2 : Z,
    remaining T time1 myInc movesToGo ply slowMover = Some r1
    /\ remaining T time2 myInc movesToGo ply slowMover = Some r2
    /\ r1 <= r2.
Proof.
  intros Hs Ht.
  rewrite !remaining_positive_slowMover by assumption.
  do 2 eexists. split; [reflexivity |]. split; [reflexivity |].
  apply Z.min_le_compat; [| assumption].
  apply int_of_double_mono.
  importances Hs as mi omi Hmi Homi.
  destruct (share_range T mi omi Hmi Homi) as [Hsh _].
  apply IZR_le in Ht. nra.
Qed.

(** X8. [MaxRatio] bounds how far the maximum may step over the optimum: on the
    same arguments, the Maximum result is at most 7.09 times the Optimum
    result plus one (the one covers the truncation to [int]). *)
Theorem remaining_max_within_MaxRatio (myTime myInc movesToGo ply slowMover : Z) :
  0 < slowMover -> 0 <= myTime -> 0 <= myInc ->
  exists a b : Z,
    remaining OptimumTime myTime myInc movesToGo ply slowMover = Some a
    /\ remaining MaxTime myTime myInc movesToGo ply slowMover = Some b
    /\ 100 * b <= 709 * (a + 1).
Proof.
  intros Hs Ht Hi.
  rewrite !remaining_positive_slowMover by assumption.
  do 2 eexists. split; [reflexivity |]. split; [reflexivity |].
  importances Hs as mi omi Hmi Homi.
  destruct (share_range OptimumTime mi omi Hmi Homi) as [Ho0 Ho1].
  destruct (share_range MaxTime mi omi Hmi Homi) as [Hm0 Hm1].
  pose proof (share_max_le_MaxRatio mi omi Hmi Homi) as Hr. unfold MaxRatio in Hr.
  apply IZR_le in Ht, Hi.
  assert (0 <= IZR myInc * omi / mi)%R as Hq.
  { apply Rmult_le_pos; [nra | left; now apply Rinv_0_lt_compat]. }
  set (e := (IZR myTime + IZR myInc * omi / mi)%R) in *.
  assert (0 <= e)%R as He by (unfold e; lra).
  destruct (int_of_double_floor (e * share OptimumTime mi omi)) as [Ha1 Ha2];
    [nra |].
  destruct (int_of_double_floor (e * share MaxTime mi omi)) as [Hb1 _]; [nra |].
  set (a := int_of_double (e * share OptimumTime mi omi)) in *.
  set (b := int_of_double (e * share MaxTime mi omi)) in *.
  assert (0 <= a) by (apply int_of_double_ge; nra).
  assert (100 * b < 709 * (a + 1)).
  { apply lt_IZR. rewrite !mult_IZR, plus_IZR. nra. }
  apply le_IZR in Ht. lia.
Qed.

Lemma remaining_max_within_MaxRatio_witness :
  0 < 89 /\ 0 <= 60000 /\ 0 <= 1000
  /\ exists a b : Z,
       remaining OptimumTime 60000 1000 100 10 89 = Some a
       /\ remaining MaxTime 60000 1000 100 10 89 = Some b
       /\ 100 * b <= 709 * (a + 1).
Proof.
  split; [lia |]. split; [lia |]. split; [lia |].
  apply (remaining_max_within_MaxRatio 60000 1000 100 10 89); lia.
Defined.

(** X9. [StealRatio] bounds what the maximum takes from the other moves: with no
    increment, the Maximum result exceeds the Optimum result by at most 35% of
    the time the optimum leaves on the clock (up to the truncation to [int]). *)
Theorem remaining_max_within_StealRatio (myTime movesToGo ply slowMover : Z) :
  0 < slowMover -> 0 <= myTime ->
  exists a b : Z,
    remaining OptimumTime myTime 0 movesToGo ply slowMover = Some a
    /\ remaining MaxTime myTime 0 movesToGo ply slowMover = Some b
    /\ 100 * (b - a) <= 35 * (myTime - a) + 65.
Proof.
  intros Hs Ht.
  rewrite !remaining_positive_slowMover by assumption.
  do 2 eexists. split; [reflexivity |]. split; [reflexivity |].
  importances Hs as mi omi Hmi Homi.
  destruct (share_range OptimumTime mi omi Hmi Homi) as [Ho0 Ho1].
  destruct (share_range MaxTime mi omi Hmi Homi) as [Hm0 Hm1].
  pose proof (share_max_le_StealRatio mi omi Hmi Homi) as Hr.
  unfold StealRatio in Hr.
  apply IZR_le in Ht.
  replace (IZR myTime + IZR 0 * omi / mi)%R with (IZR myTime)
    by (unfold Rdiv; ring).
  destruct (int_of_double_floor (IZR myTime * share OptimumTime mi omi))
    as [Ha1 Ha2]; [nra |].
  destruct (int_of_double_floor (IZR myTime * share MaxTime mi omi))
    as [Hb1 _]; [nra |].
  set (a := int_of_double (IZR myTime * share OptimumTime mi omi)) in *.
  set (b := int_of_double (IZR myTime * share MaxTime mi omi)) in *.
  assert (a <= myTime) by (apply le_IZR; nra).
  assert (100 * (b - a) < 35 * (myTime - a) + 65).
  { apply lt_IZR. rewrite plus_IZR, !mult_IZR, !minus_IZR. nra. }
  lia.
Qed.

Lemma remaining_max_within_StealRatio_witness :
  0 < 89 /\ 0 <= 60000
  /\ exists a b : Z,
       remaining OptimumTime 60000 0 100 10 89 = Some a
       /\ remaining MaxTime 60000 0 100 10 89 = Some b
       /\ 100 * (b - a) <= 35 * (60000 - a) + 65.
Proof.
  split; [lia |]. split; [lia |].
  apply (remaining_max_within_StealRatio 60000 100 10 89); lia.
Defined.

(** X10. With no increment and the arguments of a game, a larger slow mover
    never lowers the result. *)
Theorem remaining_mono_slowMover (T : TimeType)
    (myTime movesToGo ply slow1 slow2 : Z) :
  0 < slow1 -> slow1 <= slow2 -> game_arguments movesToGo ply slow2 ->
  0 <= myTime <= INT_MAX ->
  exists r1 r2 : Z,
    remaining T myTime 0 movesToGo ply slow1 = Some r1
    /\ remaining T myTime 0 movesToGo ply slow2 = Some r2
    /\ r1 <= r2.
Proof.
  intros Hs Hle _ [Ht _].
  rewrite !remaining_positive_slowMover by lia.
  do 2 eexists. split; [reflexivity |]. split; [reflexivity |].
  apply Z.min_le_compat_r, int_of_double_mono.
  rewrite !calculated_share.
  pose proof (moveImportance_positive (Z.min ply 200) _ ltac:(lia) Hs) as H1.
  pose proof (moveImportance_mono (Z.min ply 200) _ _ Hle) as H12.
  pose proof (otherMovesImportance_nonneg (Z.min ply 200) movesToGo) as Homi.
  set (m1 := moveImportance _ slow1) in *. set (m2 := moveImportance _ slow2) in *.
  set (omi := otherMovesImportance _ _) in *.
  pose proof (share_mono_mi T m1 omi H1 Homi m2 H12) as Hsh.
  destruct (share_range T m1 omi H1 Homi) as [Hp _].
  apply IZR_le in Ht.
  replace (IZR myTime + IZR 0 * omi / m1)%R with (IZR myTime)
    by (unfold Rdiv; ring).
  replace (IZR myTime + IZR 0 * omi / m2)%R with (IZR myTime)
    by (unfold Rdiv; ring).
  nra.
Qed.

Lemma remaining_mono_slowMover_witness :
  0 < 50 /\ 50 <= 100 /\ game_arguments 100 10 100 /\ 0 <= 60000 <= INT_MAX
  /\ exists r1 r2 : Z,
       remaining OptimumTime 60000 0 100 10 50 = Some r1
       /\ remaining OptimumTime 60000 0 100 10 100 = Some r2
       /\ r1 <= r2.
Proof.
  split; [lia |]. split; [lia |]. split; [in_range |]. split; [in_range |].
  apply (remaining_mono_slowMover OptimumTime 60000 100 10 50 100);
    [lia | lia | in_range | in_range].
Defined.

(** X11. With no increment and the arguments of a game, more moves to go never
    raise the result: the clock is shared among more moves. *)
Theorem remaining_anti_movesToGo (T : TimeType)
    (myTime moves1 moves2 ply slowMover : Z) :
  moves1 <= moves2 -> game_arguments moves2 ply slowMover ->
  0 <= myTime <= INT_MAX ->
  exists r1 r2 : Z,
    remaining T myTime 0 moves1 ply slowMover = Some r1
    /\ remaining T myTime 0 moves2 ply slowMover = Some r2
    /\ r2 <= r1.
Proof.
  intros Hle (_ & _ & Hs & _) [Ht _].
  rewrite !remaining_positive_slowMover by lia.
  do 2 eexists. split; [reflexivity |]. split; [reflexivity |].
  apply Z.min_le_compat_r, int_of_double_mono.
  rewrite !calculated_share.
  pose proof (moveImportance_positive (Z.min ply 200) _ ltac:(lia) Hs) as Hmi.
  pose proof (otherMovesImportance_nonneg (Z.min ply 200) moves1) as H1.
  pose proof (otherMovesImportance_mono (Z.min ply 200) _ _ Hle) as H12.
  set (mi := moveImportance _ _) in *.
  set (o1 := otherMovesImportance _ moves1) in *.
  set (o2 := otherMovesImportance _ moves2) in *.
  pose proof (share_anti_omi T mi o1 Hmi H1 o2 H12) as Hsh.
  apply IZR_le in Ht.
  replace (IZR myTime + IZR 0 * o1 / mi)%R with (IZR myTime)
    by (unfold Rdiv; ring).
  replace (IZR myTime + IZR 0 * o2 / mi)%R with (IZR myTime)
    by (unfold Rdiv; ring).
  nra.
Qed.

Lemma remaining_anti_movesToGo_witness :
  20 <= 40 /\ game_arguments 40 10 89 /\ 0 <= 60000 <= INT_MAX
  /\ exists r1 r2 : Z,
       remaining MaxTime 60000 0 20 10 89 = Some r1
       /\ remaining MaxTime 60000 0 40 10 89 = Some r2
       /\ r2 <= r1.
Proof.
  split; [lia |]. split; [in_range |]. split; [in_range |].
  apply (remaining_anti_movesToGo MaxTime 60000 20 40 10 89);
    [lia | in_range | in_range].
Defined.

(** ** More on [init] *)

Lemma get_put_other (a : ByColor) (c us : Color) (v : Z) :
  c <> us -> get (put a us v) c = get a c.
Proof. destruct c, us; intros H; try reflexivity; contradiction. Qed.

(** With a positive slow mover both calls of [remaining] return. *)
Lemma remaining_pair_defined (myTime myInc movesToGo ply slowMover : Z) :
  0 < slowMover ->
  exists a b : Z,
    remaining OptimumTime myTime myInc movesToGo ply slowMover = Some a
    /\ remaining MaxTime myTime myInc movesToGo ply slowMover = Some b.
Proof.
  intros Hs. rewrite !remaining_positive_slowMover by assumption.
  do 2 eexists. split; reflexivity.
Qed.

(** An empty clock gives 0 whatever the increment, when it is not negative. *)
Lemma remaining_zero_time (T : TimeType) (myInc movesToGo ply slowMover : Z) :
  0 < slowMover -> 0 <= myInc ->
  remaining T 0 myInc movesToGo ply slowMover = Some 0.
Proof.
  intros Hs Hi. rewrite remaining_positive_slowMover by assumption.
  f_equal. apply Z.min_r. apply int_of_double_ge.
  importances Hs as mi omi Hmi Homi.
  destruct (share_range T mi omi Hmi Homi) as [Hsh _].
  apply IZR_le in Hi.
  assert (0 <= IZR myInc * omi / mi)%R as Hq.
  { apply Rmult_le_pos; [nra | left; now apply Rinv_0_lt_compat]. }
  nra.
Qed.

(** Two calls of [init] whose calls of [remaining] are ordered leave ordered
    budgets, under the same floor and the same Ponder setting. *)
Lemma init_ordered (O1 O2 : OptionsMap) (tm1 tm2 : TimeManagement)
    (l1 l2 : LimitsType) (us : Color) (ply a1 b1 a2 b2 : Z) :
  let r1 := snd (nodes_as_time O1 tm1 l1 us) in
  let r2 := snd (nodes_as_time O2 tm2 l2 us) in
  Minimum_Thinking_Time O1 = Minimum_Thinking_Time O2 ->
  Ponder O1 = Ponder O2 ->
  remaining OptimumTime (myTime_of O1 r1 us) (get (inc r1) us) (hypMTG r1)
    ply (Slow_Mover O1) = Some a1 ->
  remaining MaxTime (myTime_of O1 r1 us) (get (inc r1) us) (hypMTG r1)
    ply (Slow_Mover O1) = Some b1 ->
  remaining OptimumTime (myTime_of O2 r2 us) (get (inc r2) us) (hypMTG r2)
    ply (Slow_Mover O2) = Some a2 ->
  remaining MaxTime (myTime_of O2 r2 us) (get (inc r2) us) (hypMTG r2)
    ply (Slow_Mover O2) = Some b2 ->
  a1 <= a2 -> b1 <= b2 ->
  exists (x y : TimeManagement) (lx ly : LimitsType),
    init O1 tm1 l1 us ply = Some (x, lx)
    /\ init O2 tm2 l2 us ply = Some (y, ly)
    /\ optimumTime x <= optimumTime y
    /\ maximumTime x <= maximumTime y.
Proof.
  intros r1 r2 Em Ep Ha1 Hb1 Ha2 Hb2 Ha Hb.
  do 4 eexists.
  split; [apply (init_Some _ _ _ _ _ a1 b1 Ha1 Hb1) |].
  split; [apply (init_Some _ _ _ _ _ a2 b2 Ha2 Hb2) |].
  cbn [optimumTime maximumTime]. rewrite Em, Ep.
  split; [| lia].
  destruct (Ponder O2); [apply quarter_more_mono |]; lia.
Qed.

(** X13. In time mode, more time on the clock of the side to move never lowers a
    budget, when both calls are within [init_in_range]. *)
Theorem init_mono_clock (Options : OptionsMap) (tm : TimeManagement)
    (limits : LimitsType) (us : Color) (ply time1 time2 : Z) :
  0 < Slow_Mover Options -> nodestime Options = 0 -> time1 <= time2 ->
  init_in_range Options tm (set_time limits us time1) us ->
  init_in_range Options tm (set_time limits us time2) us ->
  exists (a b : TimeManagement) (la lb : LimitsType),
    init Options tm (set_time limits us time1) us ply = Some (a, la)
    /\ init Options tm (set_time limits us time2) us ply = Some (b, lb)
    /\ optimumTime a <= optimumTime b
    /\ maximumTime a <= maximumTime b.
Proof.
  intros Hs Hn Ht _ _.
  set (ov := Move_Overhead Options).
  assert (Z.max (time1 - ov) 0 <= Z.max (time2 - ov) 0) as Hle by lia.
  destruct (remaining_mono_time OptimumTime _ _ (get (inc limits) us)
              (hypMTG limits) ply _ Hs Hle) as (a1 & a2 & Ha1 & Ha2 & Ha).
  destruct (remaining_mono_time MaxTime _ _ (get (inc limits) us)
              (hypMTG limits) ply _ Hs Hle) as (b1 & b2 & Hb1 & Hb2 & Hb).
  apply (init_ordered Options Options tm tm _ _ us ply a1 b1 a2 b2);
    rewrite ?nodes_as_time_off by assumption; cbn [snd];
    unfold myTime_of; cbn [time set_time]; rewrite ?get_put;
    try reflexivity; assumption.
Qed.

Lemma init_mono_clock_witness :
  let Options := {| Minimum_Thinking_Time := 20; Move_Overhead := 30;
                    Slow_Mover := 89; nodestime := 0; Ponder := true |} in
  0 < Slow_Mover Options /\ nodestime Options = 0 /\ 30000 <= 60000
  /\ init_in_range Options Time0 (set_time (go 0 1000 0) WHITE 30000) WHITE
  /\ init_in_range Options Time0 (set_time (go 0 1000 0) WHITE 60000) WHITE
  /\ exists (a b : TimeManagement) (la lb : LimitsType),
       init Options Time0 (set_time (go 0 1000 0) WHITE 30000) WHITE 10
       = Some (a, la)
       /\ init Options Time0 (set_time (go 0 1000 0) WHITE 60000) WHITE 10
          = Some (b, lb)
       /\ optimumTime a <= optimumTime b
       /\ maximumTime a <= maximumTime b.
Proof.
  split; [cbn; lia |]. split; [reflexivity |]. split; [lia |].
  split; [in_range |]. split; [in_range |].
  apply (init_mono_clock
           {| Minimum_Thinking_Time := 20; Move_Overhead := 30;
              Slow_Mover := 89; nodestime := 0; Ponder := true |}
           Time0 (go 0 1000 0) WHITE 10 30000 60000);
    [cbn; lia | reflexivity | lia | in_range | in_range].
Defined.

(** X14. A larger Move Overhead never raises a budget, in time mode and in
    node-rate mode, when both calls are within [init_in_range]. *)
Theorem init_anti_overhead (Options : OptionsMap) (tm : TimeManagement)
    (limits : LimitsType) (us : Color) (ply over1 over2 : Z) :
  0 < Slow_Mover Options -> over1 <= over2 ->
  init_in_range (set_Move_Overhead Options over1) tm limits us ->
  init_in_range (set_Move_Overhead Options over2) tm limits us ->
  exists (a b : TimeManagement) (la lb : LimitsType),
    init (set_Move_Overhead Options over1) tm limits us ply = Some (a, la)
    /\ init (set_Move_Overhead Options over2) tm limits us ply = Some (b, lb)
    /\ optimumTime b <= optimumTime a
    /\ maximumTime b <= maximumTime a.
Proof.
  intros Hs Ho _ _.
  set (l1 := snd (nodes_as_time Options tm limits us)).
  assert (Z.max (get (time l1) us - over2) 0 <= Z.max (get (time l1) us - over1) 0)
    as Hle by lia.
  destruct (remaining_mono_time OptimumTime _ _ (get (inc l1) us)
              (hypMTG l1) ply _ Hs Hle) as (a2 & a1 & Ha2 & Ha1 & Ha).
  destruct (remaining_mono_time MaxTime _ _ (get (inc l1) us)
              (hypMTG l1) ply _ Hs Hle) as (b2 & b1 & Hb2 & Hb1 & Hb).
  destruct (init_ordered (set_Move_Overhead Options over2)
              (set_Move_Overhead Options over1) tm tm limits limits us ply
              a2 b2 a1 b1) as (y & x & ly & lx & Hy & Hx & H1 & H2);
    try reflexivity; try assumption.
  exists x, y, lx, ly. auto.
Qed.

Lemma init_anti_overhead_witness :
  let Options := {| Minimum_Thinking_Time := 20; Move_Overhead := 30;
                    Slow_Mover := 89; nodestime := 0; Ponder := false |} in
  0 < Slow_Mover Options /\ 30 <= 500
  /\ init_in_range (set_Move_Overhead Options 30) Time0 (go 60000 1000 0) WHITE
  /\ init_in_range (set_Move_Overhead Options 500) Time0 (go 60000 1000 0) WHITE
  /\ exists (a b : TimeManagement) (la lb : LimitsType),
       init (set_Move_Overhead Options 30) Time0 (go 60000 1000 0) WHITE 10
       = Some (a, la)
       /\ init (set_Move_Overhead Options 500) Time0 (go 60000 1000 0) WHITE 10
          = Some (b, lb)
       /\ optimumTime b <= optimumTime a
       /\ maximumTime b <= maximumTime a.
Proof.
  split; [cbn; lia |]. split; [lia |].
  split; [in_range |]. split; [in_range |].
  apply (init_anti_overhead
           {| Minimum_Thinking_Time := 20; Move_Overhead := 30;
              Slow_Mover := 89; nodestime := 0; Ponder := false |}
           Time0 (go 60000 1000 0) WHITE 10 30 500);
    [cbn; lia | lia | in_range | in_range].
Defined.

Lemma nodes_as_time_set_movestogo (Options : OptionsMap) (tm : TimeManagement)
    (limits : LimitsType) (us : Color) (v : Z) :
  nodes_as_time Options tm (set_movestogo limits v) us
  = (fst (nodes_as_time Options tm limits us),
     set_movestogo (snd (nodes_as_time Options tm limits us)) v).
Proof.
  unfold nodes_as_time. destruct (nodestime Options =? 0); reflexivity.
Qed.

(** X3. The horizon: a time control of [MoveHorizon] moves or more is planned
    exactly as sudden death ([movestogo = 0]); the [Time] object that [init]
    leaves is the same, defined or not. *)
Theorem init_beyond_horizon (Options : OptionsMap) (tm : TimeManagement)
    (limits : LimitsType) (us : Color) (ply moves : Z) :
  MoveHorizon <= moves ->
  option_map fst (init Options tm (set_movestogo limits moves) us ply)
  = option_map fst (init Options tm (set_movestogo limits 0) us ply).
Proof.
  intros Hm. unfold init. rewrite !nodes_as_time_set_movestogo.
  destruct (nodes_as_time Options tm limits us) as [tm1 l1]. cbn [fst snd].
  assert (hypMTG (set_movestogo l1 moves) = hypMTG (set_movestogo l1 0)) as ->.
  { unfold hypMTG, MoveHorizon in *. cbn [movestogo set_movestogo].
    destruct (Z.eqb_spec moves 0); [lia |]. cbn. lia. }
  change (myTime_of Options (set_movestogo l1 moves) us)
    with (myTime_of Options (set_movestogo l1 0) us).
  change (get (inc (set_movestogo l1 moves)) us)
    with (get (inc (set_movestogo l1 0)) us).
  destruct (remaining OptimumTime _ _ _ _ _); [| reflexivity].
  destruct (remaining MaxTime _ _ _ _ _); reflexivity.
Qed.

Lemma init_beyond_horizon_witness :
  let Options := {| Minimum_Thinking_Time := 20; Move_Overhead := 30;
                    Slow_Mover := 89; nodestime := 0; Ponder := false |} in
  MoveHorizon <= 250
  /\ option_map fst (init Options Time0 (set_movestogo (go 60000 1000 7) 250)
                       WHITE 10)
     = option_map fst (init Options Time0 (set_movestogo (go 60000 1000 7) 0)
                         WHITE 10).
Proof.
  split; [unfold MoveHorizon; lia |].
  apply (init_beyond_horizon
           {| Minimum_Thinking_Time := 20; Move_Overhead := 30;
              Slow_Mover := 89; nodestime := 0; Ponder := false |}
           Time0 (go 60000 1000 7) WHITE 10 250).
  unfold MoveHorizon. lia.
Defined.

(** X15. What [init] leaves alone: it records the start time of [limits], never
    touches [movestogo], [startTime] or the clock and increment of the other
    side, and in time mode changes neither [limits] nor [availableNodes]. *)
Theorem init_frame (Options : OptionsMap) (tm : TimeManagement)
    (limits : LimitsType) (us : Color) (ply : Z) :
  0 < Slow_Mover Options ->
  exists (tm' : TimeManagement) (limits' : LimitsType),
    init Options tm limits us ply = Some (tm', limits')
    /\ tm_startTime tm' = startTime limits
    /\ movestogo limits' = movestogo limits
    /\ startTime limits' = startTime limits
    /\ (forall c : Color,
           c <> us ->
           get (time limits') c = get (time limits) c
           /\ get (inc limits') c = get (inc limits) c)
    /\ (nodestime Options = 0 ->
        limits' = limits /\ availableNodes tm' = availableNodes tm).
Proof.
  intros Hs.
  set (l1 := snd (nodes_as_time Options tm limits us)).
  destruct (remaining_pair_defined (myTime_of Options l1 us) (get (inc l1) us)
              (hypMTG l1) ply _ Hs) as (a & b & Ha & Hb).
  do 2 eexists. split; [apply (init_Some _ _ _ _ _ a b Ha Hb) |].
  cbn [tm_startTime availableNodes]. subst l1. unfold nodes_as_time.
  destruct (Z.eqb_spec (nodestime Options) 0) as [E | E];
    cbn [fst snd movestogo startTime time inc].
  - repeat apply conj; auto.
  - repeat apply conj; auto; try contradiction.
    intros c Hc. rewrite !get_put_other by assumption. auto.
Qed.

Lemma init_frame_witness :
  let Options := {| Minimum_Thinking_Time := 20; Move_Overhead := 30;
                    Slow_Mover := 89; nodestime := 3; Ponder := false |} in
  let limits := go 60000 1000 40 in
  0 < Slow_Mover Options
  /\ exists (tm' : TimeManagement) (limits' : LimitsType),
       init Options Time0 limits WHITE 10 = Some (tm', limits')
       /\ tm_startTime tm' = startTime limits
       /\ movestogo limits' = movestogo limits
       /\ startTime limits' = startTime limits
       /\ (forall c : Color,
              c <> WHITE ->
              get (time limits') c = get (time limits) c
              /\ get (inc limits') c = get (inc limits) c)
       /\ (nodestime Options = 0 ->
           limits' = limits /\ availableNodes tm' = availableNodes Time0).
Proof.
  split; [cbn; lia |].
  apply (init_frame
           {| Minimum_Thinking_Time := 20; Move_Overhead := 30;
              Slow_Mover := 89; nodestime := 3; Ponder := false |}
           Time0 (go 60000 1000 40) WHITE 10).
  cbn; lia.
Defined.

(** X16. The budgets are computed afresh: of the [Time] object, [init] reads only
    [availableNodes]; the budgets and start time of an earlier call have no
    influence on the result. *)
Theorem init_reads_only_latch (Options : OptionsMap) (tm1 tm2 : TimeManagement)
    (limits : LimitsType) (us : Color) (ply : Z) :
  availableNodes tm1 = availableNodes tm2 ->
  init Options tm1 limits us ply = init Options tm2 limits us ply.
Proof.
  intros E. unfold init, nodes_as_time.
  destruct (nodestime Options =? 0); [now rewrite E |].
  rewrite E. destruct (availableNodes tm2 =? 0); cbn [availableNodes];
    rewrite ?E; reflexivity.
Qed.

Lemma init_reads_only_latch_witness :
  let Options := {| Minimum_Thinking_Time := 20; Move_Overhead := 30;
                    Slow_Mover := 89; nodestime := 0; Ponder := false |} in
  let earlier := {| tm_startTime := 77; optimumTime := 1500; maximumTime := 9000;
                    availableNodes := 0 |} in
  availableNodes earlier = availableNodes Time0
  /\ init Options earlier (go 60000 1000 0) WHITE 12
     = init Options Time0 (go 60000 1000 0) WHITE 12.
Proof.
  split; [reflexivity |].
  apply (init_reads_only_latch
           {| Minimum_Thinking_Time := 20; Move_Overhead := 30;
              Slow_Mover := 89; nodestime := 0; Ponder := false |}
           {| tm_startTime := 77; optimumTime := 1500; maximumTime := 9000;
              availableNodes := 0 |} Time0 (go 60000 1000 0) WHITE 12).
  reflexivity.
Defined.

(** X17. Ponder changes [optimumTime] only: [maximumTime], [availableNodes], the
    start time and [limits] are the same with Ponder on and off, and with a
    minimum thinking time that is not negative Ponder never lowers
    [optimumTime], when the call with Ponder on is within [init_in_range]. *)
Theorem init_Ponder_only_optimum (Options : OptionsMap) (tm : TimeManagement)
    (limits : LimitsType) (us : Color) (ply : Z) :
  0 < Slow_Mover Options -> 0 <= Minimum_Thinking_Time Options ->
  init_in_range (set_Ponder Options true) tm limits us ->
  exists (off on : TimeManagement) (limits' : LimitsType),
    init (set_Ponder Options false) tm limits us ply = Some (off, limits')
    /\ init (set_Ponder Options true) tm limits us ply = Some (on, limits')
    /\ maximumTime on = maximumTime off
    /\ availableNodes on = availableNodes off
    /\ tm_startTime on = tm_startTime off
    /\ optimumTime off <= optimumTime on.
Proof.
  intros Hs Hm _.
  set (l1 := snd (nodes_as_time Options tm limits us)).
  destruct (remaining_pair_defined (myTime_of Options l1 us) (get (inc l1) us)
              (hypMTG l1) ply _ Hs) as (a & b & Ha & Hb).
  do 3 eexists.
  split; [apply (init_Some (set_Ponder Options false) _ _ _ _ a b Ha Hb) |].
  split; [apply (init_Some (set_Ponder Options true) _ _ _ _ a b Ha Hb) |].
  cbn [maximumTime availableNodes tm_startTime optimumTime Ponder set_Ponder
       Minimum_Thinking_Time].
  repeat apply conj; try reflexivity.
  assert (0 <= Z.max a (Minimum_Thinking_Time Options) ÷ 4)
    by (apply Z.quot_pos; lia).
  lia.
Qed.

Lemma init_Ponder_only_optimum_witness :
  let Options := {| Minimum_Thinking_Time := 20; Move_Overhead := 30;
                    Slow_Mover := 89; nodestime := 0; Ponder := false |} in
  0 < Slow_Mover Options /\ 0 <= Minimum_Thinking_Time Options
  /\ init_in_range (set_Ponder Options true) Time0 (go 60000 1000 0) WHITE
  /\ exists (off on : TimeManagement) (limits' : LimitsType),
       init (set_Ponder Options false) Time0 (go 60000 1000 0) WHITE 10
       = Some (off, limits')
       /\ init (set_Ponder Options true) Time0 (go 60000 1000 0) WHITE 10
          = Some (on, limits')
       /\ maximumTime on = maximumTime off
       /\ availableNodes on = availableNodes off
       /\ tm_startTime on = tm_startTime off
       /\ optimumTime off <= optimumTime on.
Proof.
  split; [cbn; lia |]. split; [cbn; lia |]. split; [in_range |].
  apply (init_Ponder_only_optimum
           {| Minimum_Thinking_Time := 20; Move_Overhead := 30;
              Slow_Mover := 89; nodestime := 0; Ponder := false |}
           Time0 (go 60000 1000 0) WHITE 10); [cbn; lia | cbn; lia | in_range].
Defined.

(** X18. A clock that does not exceed the Move Overhead: in time mode, for a
    call within [init_in_range], both budgets are the minimum thinking time
    (0 when that is negative), whatever the increment, and Ponder adds its
    quarter to [optimumTime]. *)
Theorem init_clock_within_overhead (Options : OptionsMap) (tm : TimeManagement)
    (limits : LimitsType) (us : Color) (ply : Z) :
  0 < Slow_Mover Options -> nodestime Options = 0 ->
  init_in_range Options tm limits us ->
  get (time limits) us <= Move_Overhead Options ->
  let floor := Z.max 0 (Minimum_Thinking_Time Options) in
  init Options tm limits us ply
  = Some ({| tm_startTime := startTime limits;
             optimumTime := if Ponder Options then floor + floor ÷ 4 else floor;
             maximumTime := floor;
             availableNodes := availableNodes tm |}, limits).
Proof.
  intros Hs Hn (_ & _ & Hr & _) Ht floor.
  rewrite (nodes_as_time_off _ _ _ _ Hn) in Hr. cbn [snd] in Hr.
  destruct Hr as (_ & _ & Hi & _).
  pose proof (init_Some Options tm limits us ply 0 0) as H.
  rewrite (nodes_as_time_off _ _ _ _ Hn) in H. cbn [fst snd] in H.
  assert (myTime_of Options limits us = 0) as E by (unfold myTime_of; lia).
  rewrite E in H. apply H; now apply remaining_zero_time.
Qed.

Lemma init_clock_within_overhead_witness :
  let Options := {| Minimum_Thinking_Time := 20; Move_Overhead := 30;
                    Slow_Mover := 89; nodestime := 0; Ponder := true |} in
  0 < Slow_Mover Options /\ nodestime Options = 0
  /\ init_in_range Options Time0 (go 25 1000 0) WHITE
  /\ get (time (go 25 1000 0)) WHITE <= Move_Overhead Options
  /\ init Options Time0 (go 25 1000 0) WHITE 80
     = Some ({| tm_startTime := 0; optimumTime := 25; maximumTime := 20;
                availableNodes := 0 |}, go 25 1000 0).
Proof.
  split; [cbn; lia |]. split; [reflexivity |]. split; [in_range |].
  split; [cbn; lia |].
  apply (init_clock_within_overhead
           {| Minimum_Thinking_Time := 20; Move_Overhead := 30;
              Slow_Mover := 89; nodestime := 0; Ponder := true |}
           Time0 (go 25 1000 0) WHITE 80);
    [cbn; lia | reflexivity | in_range | cbn; lia].
Defined.

(** X19. Node-rate mode is time mode on a scaled clock: at the first call of a
    session, with a rate [n] whose product with the clock fits an [int], the
    budgets are those of time mode for a clock and an increment multiplied by
    [n] (the Move Overhead is subtracted unscaled in both). *)
Theorem init_nodes_as_scaled_time (Options : OptionsMap) (tm : TimeManagement)
    (limits : LimitsType) (us : Color) (ply n : Z) :
  availableNodes tm = 0 -> n <> 0 ->
  - 2 ^ 31 <= n * get (time limits) us < 2 ^ 31 ->
  budgets (init (set_nodestime Options n) tm limits us ply)
  = budgets (init (set_nodestime Options 0) tm
               (set_inc (set_time limits us (n * get (time limits) us)) us
                  (get (inc limits) us * n)) us ply).
Proof.
  intros Ha Hn Hr. unfold init, nodes_as_time.
  cbn [nodestime set_nodestime Z.eqb].
  destruct (Z.eqb_spec n 0) as [E | _]; [contradiction |].
  rewrite Ha. cbn [Z.eqb availableNodes].
  unfold myTime_of, hypMTG.
  cbn [time inc movestogo set_inc set_time Move_Overhead set_nodestime
       Slow_Mover Minimum_Thinking_Time Ponder].
  rewrite !get_put, (to_int_small _ Hr).
  destruct (remaining OptimumTime _ _ _ _ _); [| reflexivity].
  destruct (remaining MaxTime _ _ _ _ _); reflexivity.
Qed.

Lemma init_nodes_as_scaled_time_witness :
  let Options := {| Minimum_Thinking_Time := 20; Move_Overhead := 30;
                    Slow_Mover := 89; nodestime := 0; Ponder := false |} in
  availableNodes Time0 = 0 /\ 600 <> 0
  /\ - 2 ^ 31 <= 600 * get (time (go 60000 1000 0)) WHITE < 2 ^ 31
  /\ budgets (init (set_nodestime Options 600) Time0 (go 60000 1000 0) WHITE 10)
     = budgets (init (set_nodestime Options 0) Time0
                  (set_inc (set_time (go 60000 1000 0) WHITE 36000000) WHITE
                     600000) WHITE 10).
Proof.
  split; [reflexivity |]. split; [lia |]. split; [cbn; lia |].
  apply (init_nodes_as_scaled_time
           {| Minimum_Thinking_Time := 20; Move_Overhead := 30;
              Slow_Mover := 89; nodestime := 0; Ponder := false |}
           Time0 (go 60000 1000 0) WHITE 10 600); [reflexivity | lia | cbn; lia].
Defined.

(** ** The budget over the course of the game *)

Section LaterMoves.
Local Open Scope R_scope.

Lemma ply_arg_plus (p d : Z) : ply_arg (p + d) = ply_arg p + IZR d / PlyScale.
Proof. unfold ply_arg, PlyScale. rewrite plus_IZR. lra. Qed.

(** The weight of a move [d] plies ahead, relative to the present move, falls
    as the game goes on: [imp (q + d) / imp q <= imp (p + d) / imp p] for
    [p <= q], written without the divisions. *)
Lemma importance_ratio_anti (p q d : Z) :
  (p <= q)%Z -> (0 <= d)%Z ->
  move_importance (q + d) * move_importance p
  <= move_importance (p + d) * move_importance q.
Proof.
  intros Hpq Hd.
  destruct (Z_le_gt_dec (q + d) 5481) as [Hq | Hq].
  2: { rewrite (move_importance_overflow (q + d)) by lia.
       pose proof (move_importance_nonneg (p + d)).
       pose proof (move_importance_nonneg q). nra. }
  rewrite !move_importance_unfold by lia. rewrite <- !exp_plus.
  apply exp_le_mono. rewrite !ply_arg_plus, !exp_plus.
  pose proof (exp_pos (ply_arg p)) as Hp. pose proof (exp_pos (ply_arg q)) as Hq'.
  pose proof (exp_le_mono _ _ (ply_arg_mono p q Hpq)) as Hle.
  assert (1 <= exp (IZR d / PlyScale)) as HD.
  { rewrite <- exp_0. apply exp_le_mono. apply IZR_le in Hd.
    unfold PlyScale, Rdiv. apply Rmult_le_pos; [lra |].
    left. apply Rinv_0_lt_compat. lra. }
  set (A := exp (ply_arg p)) in *. set (B := exp (ply_arg q)) in *.
  set (D := exp (IZR d / PlyScale)) in *.
  assert (0 < A * D) as HAD by (apply Rmult_lt_0_compat; lra).
  assert (0 < B * D) as HBD by (apply Rmult_lt_0_compat; lra).
  assert (0 <= (B - A) * (D - 1)) as Hcross by (apply Rmult_le_pos; lra).
  assert (ln ((1 + A * D) * (1 + B)) <= ln ((1 + B * D) * (1 + A))) as Hln.
  { apply ln_le_mono; [apply Rmult_lt_0_compat; lra | nra]. }
  rewrite !ln_mult in Hln by lra.
  unfold Skew. lra.
Qed.

Lemma importance_loop_ratio_anti (p q i : Z) (n : nat) :
  (p <= q)%Z -> (0 <= i)%Z ->
  importance_loop q i n 0 * move_importance p
  <= importance_loop p i n 0 * move_importance q.
Proof.
  intros Hpq. revert i. induction n as [| n IH]; intros i Hi.
  - cbn. lra.
  - cbn [importance_loop].
    rewrite (importance_loop_acc q), (importance_loop_acc p).
    specialize (IH (i + 1)%Z ltac:(lia)).
    pose proof (importance_ratio_anti p q (2 * i) Hpq ltac:(lia)). lra.
Qed.

(** The share of the clock given to the move grows with the ply. *)
Lemma share_mono_ply (T : TimeType) (p q movesToGo slowMover : Z) :
  (0 < slowMover)%Z -> (p <= q)%Z -> (q <= 5481)%Z ->
  share T (moveImportance p slowMover) (otherMovesImportance p movesToGo)
  <= share T (moveImportance q slowMover) (otherMovesImportance q movesToGo).
Proof.
  intros Hs Hpq Hq.
  pose proof (moveImportance_positive p _ ltac:(lia) Hs) as Hmp.
  pose proof (moveImportance_positive q _ Hq Hs) as Hmq.
  pose proof (otherMovesImportance_nonneg p movesToGo) as Hop.
  pose proof (otherMovesImportance_nonneg q movesToGo) as Hoq.
  assert (otherMovesImportance q movesToGo * moveImportance p slowMover
          <= otherMovesImportance p movesToGo * moveImportance q slowMover) as Hx.
  { pose proof (importance_loop_ratio_anti p q 1 (Z.to_nat (movesToGo - 1))
                  Hpq ltac:(lia)) as H.
    apply IZR_lt in Hs. unfold otherMovesImportance, moveImportance. nra. }
  set (mp := moveImportance p slowMover) in *.
  set (mq := moveImportance q slowMover) in *.
  set (op := otherMovesImportance p movesToGo) in *.
  set (oq := otherMovesImportance q movesToGo) in *.
  unfold share.
  destruct T; unfold TMaxRatio, TStealRatio, MaxRatio, StealRatio;
    apply Rmin_mono; apply Rdiv_le_cross; nra.
Qed.

End LaterMoves.

(** X12. With no increment, the same clock and the arguments of a game, a later
    move never gets less than an earlier one: the result of [remaining] does
    not decrease with the ply (and is constant from ply 200 on, where the ply
    is capped). *)
Theorem remaining_mono_ply (T : TimeType)
    (myTime movesToGo ply1 ply2 slowMover : Z) :
  ply1 <= ply2 -> game_arguments movesToGo ply1 slowMover ->
  0 <= myTime <= INT_MAX ->
  exists r1 r2 : Z,
    remaining T myTime 0 movesToGo ply1 slowMover = Some r1
    /\ remaining T myTime 0 movesToGo ply2 slowMover = Some r2
    /\ r1 <= r2
    /\ (200 <= ply1 -> r1 = r2).
Proof.
  intros Hp (_ & _ & Hs & _) [Ht _].
  rewrite !remaining_positive_slowMover by assumption.
  do 2 eexists. split; [reflexivity |]. split; [reflexivity |].
  split.
  - apply Z.min_le_compat_r, int_of_double_mono.
    rewrite !calculated_share.
    pose proof (share_mono_ply T (Z.min ply1 200) (Z.min ply2 200) movesToGo
                  slowMover Hs ltac:(lia) ltac:(lia)) as Hsh.
    apply IZR_le in Ht.
    replace (IZR myTime + IZR 0 * _ / _)%R with (IZR myTime)
      by (unfold Rdiv; ring).
    replace (IZR myTime + IZR 0 * _ / _)%R with (IZR myTime)
      by (unfold Rdiv; ring).
    nra.
  - intros H200.
    replace (Z.min ply1 200) with 200 by lia.
    replace (Z.min ply2 200) with 200 by lia. reflexivity.
Qed.

Lemma remaining_mono_ply_witness :
  10 <= 60 /\ game_arguments 100 10 89 /\ 0 <= 60000 <= INT_MAX
  /\ exists r1 r2 : Z,
       remaining OptimumTime 60000 0 100 10 89 = Some r1
       /\ remaining OptimumTime 60000 0 100 60 89 = Some r2
       /\ r1 <= r2
       /\ (200 <= 10 -> r1 = r2).
Proof.
  split; [lia |]. split; [in_range |]. split; [in_range |].
  apply (remaining_mono_ply OptimumTime 60000 100 10 60 89);
    [lia | in_range | in_range].
Defined.

(** ** [init] called again, and the last move before the time control *)

(** X20. [init] writes into [limits]: in node-rate mode a second call on the limits
    that the first call returned keeps the latch and the clock, but multiplies
    the increment by the rate once more (both calls being within
    [init_in_range]: the second reads the latch and the limits that the
    conversion of the first has left). *)
Theorem init_twice_compounds_increment (Options : OptionsMap) (tm : TimeManagement)
    (limits : LimitsType) (us : Color) (ply1 ply2 : Z) :
  0 < Slow_Mover Options -> nodestime Options <> 0 ->
  init_in_range Options tm limits us ->
  init_in_range Options (fst (nodes_as_time Options tm limits us))
    (snd (nodes_as_time Options tm limits us)) us ->
  exists (tm1 tm2 : TimeManagement) (l1 l2 : LimitsType),
    init Options tm limits us ply1 = Some (tm1, l1)
    /\ init Options tm1 l1 us ply2 = Some (tm2, l2)
    /\ availableNodes tm2 = availableNodes tm1
    /\ get (time l2) us = get (time l1) us
    /\ get (inc l2) us
       = get (inc limits) us * nodestime Options * nodestime Options.
Proof.
  intros Hs Hn _ _.
  set (r1 := nodes_as_time Options tm limits us).
  destruct (remaining_pair_defined (myTime_of Options (snd r1) us)
              (get (inc (snd r1)) us) (hypMTG (snd r1)) ply1 _ Hs)
    as (a1 & b1 & Ha1 & Hb1).
  pose proof (init_Some Options tm limits us ply1 a1 b1 Ha1 Hb1) as H1.
  cbv zeta in H1. fold r1 in H1.
  set (tm1 := {| tm_startTime := startTime (snd r1);
                 optimumTime := _; maximumTime := _;
                 availableNodes := availableNodes (fst r1) |}) in H1.
  set (r2 := nodes_as_time Options tm1 (snd r1) us).
  destruct (remaining_pair_defined (myTime_of Options (snd r2) us)
              (get (inc (snd r2)) us) (hypMTG (snd r2)) ply2 _ Hs)
    as (a2 & b2 & Ha2 & Hb2).
  pose proof (init_Some Options tm1 (snd r1) us ply2 a2 b2 Ha2 Hb2) as H2.
  cbv zeta in H2. fold r2 in H2.
  do 4 eexists. split; [exact H1 |]. split; [exact H2 |].
  cbn [availableNodes].
  destruct (nodes_as_time_latch Options tm limits us Hn) as (L1 & L2 & L3 & _).
  destruct (nodes_as_time_latch Options tm1 (snd r1) us Hn) as (M1 & M2 & M3 & _).
  fold r1 in L1, L2, L3. fold r2 in M1, M2, M3.
  change (availableNodes tm1) with (availableNodes (fst r1)) in M1.
  assert (availableNodes (fst r2) = availableNodes (fst r1)) as E.
  { rewrite M1. destruct (Z.eqb_spec (availableNodes (fst r1)) 0) as [Z0 | _];
      [| reflexivity].
    rewrite L2, Z0. change (to_int 0) with 0. lia. }
  split; [exact E |]. split; [now rewrite M2, L2, E |].
  now rewrite M3, L3.
Qed.

Lemma init_twice_compounds_increment_witness :
  let Options := {| Minimum_Thinking_Time := 20; Move_Overhead := 30;
                    Slow_Mover := 89; nodestime := 100; Ponder := false |} in
  0 < Slow_Mover Options /\ nodestime Options <> 0
  /\ init_in_range Options Time0 (go 60000 10 0) WHITE
  /\ init_in_range Options
       (fst (nodes_as_time Options Time0 (go 60000 10 0) WHITE))
       (snd (nodes_as_time Options Time0 (go 60000 10 0) WHITE)) WHITE
  /\ exists (tm1 tm2 : TimeManagement) (l1 l2 : LimitsType),
       init Options Time0 (go 60000 10 0) WHITE 10 = Some (tm1, l1)
       /\ init Options tm1 l1 WHITE 12 = Some (tm2, l2)
       /\ availableNodes tm2 = availableNodes tm1
       /\ get (time l2) WHITE = get (time l1) WHITE
       /\ get (inc l2) WHITE = 10 * 100 * 100.
Proof.
  split; [cbn; lia |]. split; [cbn; lia |].
  split; [in_range |]. split; [in_range |].
  apply (init_twice_compounds_increment
           {| Minimum_Thinking_Time := 20; Move_Overhead := 30;
              Slow_Mover := 89; nodestime := 100; Ponder := false |}
           Time0 (go 60000 10 0) WHITE 10 12);
    [cbn; lia | cbn; lia | in_range | in_range].
Defined.

(** X21. The last move before the time control ([movestogo = 1]), in time mode
    with a slow mover that is not 0: both budgets are the whole clock after
    the overhead, or the minimum thinking time when that is larger, whatever
    the ply and the increment; Ponder adds its quarter to [optimumTime].  The
    subtraction of the overhead and the budgets are to fit an [int]. *)
Theorem init_last_move (Options : OptionsMap) (tm : TimeManagement)
    (limits : LimitsType) (us : Color) (ply : Z) :
  Slow_Mover Options <> 0 -> nodestime Options = 0 -> movestogo limits = 1 ->
  is_int (get (time limits) us - Move_Overhead Options) ->
  let p := Z.max (myTime_of Options limits us) (Minimum_Thinking_Time Options) in
  is_int (if Ponder Options then p + p ÷ 4 else p) ->
  init Options tm limits us ply
  = Some ({| tm_startTime := startTime limits;
             optimumTime := if Ponder Options then p + p ÷ 4 else p;
             maximumTime := p;
             availableNodes := availableNodes tm |}, limits).
Proof.
  intros Hs Hn Hm _ p _.
  pose proof (init_Some Options tm limits us ply
                (myTime_of Options limits us) (myTime_of Options limits us)) as H.
  rewrite (nodes_as_time_off _ _ _ _ Hn) in H. cbn [fst snd] in H.
  assert (hypMTG limits <= 1) as Hh.
  { unfold hypMTG, MoveHorizon. rewrite Hm. cbn. lia. }
  apply H; now apply remaining_last_move.
Qed.

Lemma init_last_move_witness :
  let Options := {| Minimum_Thinking_Time := 20; Move_Overhead := 30;
                    Slow_Mover := 89; nodestime := 0; Ponder := false |} in
  Slow_Mover Options <> 0 /\ nodestime Options = 0
  /\ movestogo (go 10000 500 1) = 1
  /\ is_int (get (time (go 10000 500 1)) WHITE - Move_Overhead Options)
  /\ is_int 9970
  /\ init Options Time0 (go 10000 500 1) WHITE 78
     = Some ({| tm_startTime := 0; optimumTime := 9970; maximumTime := 9970;
                availableNodes := 0 |}, go 10000 500 1).
Proof.
  split; [cbn; lia |]. split; [reflexivity |]. split; [reflexivity |].
  split; [in_range |]. split; [in_range |].
  apply (init_last_move
           {| Minimum_Thinking_Time := 20; Move_Overhead := 30;
              Slow_Mover := 89; nodestime := 0; Ponder := false |}
           Time0 (go 10000 500 1) WHITE 78);
    [cbn; lia | reflexivity | reflexivity | in_range | in_range].
Defined.
